(** * Timetra: temporal expressions and overlap reconciliation

    A shallow embedding of the parts of Timetra that turn loose time
    expressions into intervals and reconcile a new interval with the facts
    already logged:

    - [timetra/diary/utils.py]: [format_delta], [split_time], [parse_time],
      [parse_time_to_datetime], [parse_delta], [extract_date_time_bounds],
      [parse_date_time_bounds], [normalize_group];
    - [timetra/storage.py]: [get_hamster_activity], [parse_activity],
      [get_facts_for_day], [get_latest_fact], [get_current_fact],
      [get_prev_end_time], [get_start_end], [update_fact];
    - [timetra/cli/__init__.py]: [parse_activity], [now], [log_activity],
      [add_post_scriptum], [update_fact];
    - more of [timetra/diary/utils.py]: [to_date], [to_datetime],
      [normalize_component]; [notification.py]: [beep].

    Conventions.  A naive [datetime] is an integer number of microseconds on
    an unbounded proleptic time line (the interpreter's year range
    1..9999 is not modelled), a [timedelta] a signed number of
    microseconds.  Strings are sequences of code points below 256.  Python
    exceptions are values of [pyerr]; [assert] statements are live (the
    interpreter runs without [-O]).  Hamster is an external collaborator:
    its answers are parameters, the calls that alter it are recorded in a
    trace of events, together with the lines a command prints and the
    questions it asks. *)

From Stdlib Require Import ZArith String Ascii List Bool Lia Permutation DecimalString.
From stdpp Require Import base option list gmap strings sets.

Local Open Scope Z_scope.
Set Warnings "-clear-no-such-hyp".

(** ** Python results *)

Module Py.

(** What a failed [assert] carries: nothing, a message, or the list of
    activities of [get_hamster_activity]'s ambiguity report. *)
Inductive assertion : Type :=
| Bare
| Message (msg : string)
| Ambiguous (candidates : list (string * string)).

Inductive pyerr : Type :=
| AssertionError (a : assertion)
| AttributeError
| TypeError
| ValueError (msg : string)
| CommandError (msg : string)
(* [CommandError(e)] for a caught [AssertionError] [e] *)
| CommandErrorOf (a : assertion).

Inductive result (A : Type) : Type :=
| Ok (a : A)
| Raise (e : pyerr).

Arguments Ok {A} a.
Arguments Raise {A} e.

#[export] Instance result_ret : MRet result := fun A a => Ok a.
#[export] Instance result_bind : MBind result := fun A B f m =>
  match m with
  | Ok a => f a
  | Raise e => Raise e
  end.

End Py.
Import Py.

(** ** Dates and times ([datetime] module) *)

Module Datetime.

Definition datetime := Z.
Definition timedelta := Z.

Definition us_per_second : Z := 1000000.
Definition us_per_minute : Z := 60 * us_per_second.
Definition us_per_hour : Z := 60 * us_per_minute.
Definition us_per_day : Z := 24 * us_per_hour.

(** [datetime.time]: a naive time of day. *)
Record time : Type := mk_time {
  hour : Z;
  minute : Z;
  second : Z;
  microsecond : Z
}.

(** The constructor of [datetime.time] accepts exactly these field values. *)
Definition valid_time (t : time) : Prop :=
  0 <= hour t < 24 /\ 0 <= minute t < 60 /\
  0 <= second t < 60 /\ 0 <= microsecond t < 1000000.

(** [timedelta(hours=h, minutes=m)] and [timedelta(days=d)]. *)
Definition timedelta_hm (h m : Z) : timedelta := h * us_per_hour + m * us_per_minute.
Definition timedelta_days (d : Z) : timedelta := d * us_per_day.

(** [td.seconds]: the seconds field of the normalised timedelta,
    [0 <= seconds < 86400] (days and microseconds are separate fields). *)
Definition td_seconds (td : timedelta) : Z := (td mod us_per_day) / us_per_second.

(** [td.total_seconds() < 0] *)
Definition td_negative (td : timedelta) : bool := td <? 0.

(** [dt.date()] as the ordinal of the day, and [dt.time()]. *)
Definition dt_date (d : datetime) : Z := d / us_per_day.

Definition dt_time (d : datetime) : time :=
  let r := d mod us_per_day in
  {| hour := r / us_per_hour;
     minute := (r mod us_per_hour) / us_per_minute;
     second := (r mod us_per_minute) / us_per_second;
     microsecond := r mod us_per_second |}.

(** [datetime.combine(date, time)] for a day ordinal. *)
Definition dt_combine (day : Z) (t : time) : datetime :=
  day * us_per_day + hour t * us_per_hour + minute t * us_per_minute
  + second t * us_per_second + microsecond t.

(** [dt.replace(hour=h, minute=m)]: year, month, day, second and
    microsecond are kept; an hour or minute out of range is a ValueError. *)
Definition dt_replace_hm (d : datetime) (h m : Z) : result datetime :=
  if negb ((0 <=? h) && (h <? 24)) then Raise (ValueError "hour must be in 0..23")
  else if negb ((0 <=? m) && (m <? 60)) then Raise (ValueError "minute must be in 0..59")
  else Ok (dt_date d * us_per_day + h * us_per_hour + m * us_per_minute
           + d mod us_per_minute).

(** [a < b] on [datetime.time]: field by field, as on the tuple
    (hour, minute, second, microsecond). *)
Definition time_lt (a b : time) : bool :=
  if hour a =? hour b then
    if minute a =? minute b then
      if second a =? second b then microsecond a <? microsecond b
      else second a <? second b
    else minute a <? minute b
  else hour a <? hour b.

Definition is_midnight (t : time) : bool :=
  (hour t =? 0) && (minute t =? 0) && (second t =? 0) && (microsecond t =? 0).

End Datetime.
Import Datetime.

(** ** Strings ([str] methods) *)

Module Str.

Local Open Scope string_scope.

Definition newline : string := String (ascii_of_nat 10) EmptyString.

(** [c in s] for a single character. *)
Fixpoint contains_char (c : ascii) (s : string) : bool :=
  match s with
  | EmptyString => false
  | String d s' => Ascii.eqb c d || contains_char c s'
  end.

(** [sub in s] *)
Fixpoint contains (sub s : string) : bool :=
  String.prefix sub s ||
  match s with
  | EmptyString => false
  | String _ s' => contains sub s'
  end.

(** [s.split(c)] for a one-character separator: never an empty list. *)
Fixpoint split (c : ascii) (s : string) : list string :=
  match s with
  | EmptyString => [EmptyString]
  | String d s' =>
      if Ascii.eqb c d then EmptyString :: split c s'
      else match split c s' with
           | part :: parts => String d part :: parts
           | [] => [String d EmptyString]
           end
  end.

(** [sep.join(parts)] *)
Fixpoint join (sep : string) (parts : list string) : string :=
  match parts with
  | [] => EmptyString
  | [p] => p
  | p :: ps => p ++ sep ++ join sep ps
  end.

(** [s[:-2]] and [s[-2:]] *)
Definition drop_last2 (s : string) : string :=
  String.substring 0 (String.length s - 2)%nat s.
Definition last2 (s : string) : string :=
  String.substring (String.length s - 2)%nat 2 s.

(** Characters that [unicode.strip()] removes, among code points below 256. *)
Definition is_space (c : ascii) : bool :=
  let n := nat_of_ascii c in
  ((9 <=? n) && (n <=? 13) || (28 <=? n) && (n <=? 32)
   || (n =? 133) || (n =? 160))%nat.

Fixpoint lstrip (s : string) : string :=
  match s with
  | EmptyString => EmptyString
  | String c s' => if is_space c then lstrip s' else s
  end.

Fixpoint rstrip (s : string) : string :=
  match s with
  | EmptyString => EmptyString
  | String c s' =>
      match rstrip s' with
      | EmptyString => if is_space c then EmptyString else String c EmptyString
      | r => String c r
      end
  end.

Definition strip (s : string) : string := rstrip (lstrip s).

(** Python truth value of an optional string: [None] and [''] are false. *)
Definition given (o : option string) : bool :=
  match o with
  | Some (String _ _) => true
  | _ => false
  end.

End Str.

(** ** Regular expressions ([re] module)

    The fragment of Python's [re] that [extract_date_time_bounds] uses:
    character classes, greedy bounded repetition of a class, concatenation,
    ordered alternation and named groups.  Characters are code points below
    256, where [\d] and [[0-9]] agree. *)

Module Re.

Inductive regex : Type :=
| Chr (p : ascii -> bool)
| Repeat (p : ascii -> bool) (lo : nat) (hi : option nat)
| Seq (a b : regex)
| Alt (a b : regex)
| Group (name : string) (a : regex).

(** [m.groupdict()]: every named group of the pattern, [None] for a group
    that took no part in the match. *)
Abbreviation groupdict := (gmap string (option string)).

Fixpoint group_names (r : regex) : list string :=
  match r with
  | Chr _ | Repeat _ _ _ => []
  | Seq a b | Alt a b => group_names a ++ group_names b
  | Group name a => name :: group_names a
  end.

Definition no_groups (r : regex) : groupdict :=
  list_to_map ((fun n => (n, None)) <$> group_names r).

(** The lengths a greedy repetition [p{lo,hi}] can consume at the start of
    [s], in the order the matcher tries them: one more character first,
    stopping here (when [lo] is reached) last. *)
Fixpoint rep_parses (p : ascii -> bool) (lo : nat) (hi : option nat)
    (s : list ascii) : list nat :=
  match s with
  | c :: s' =>
      if p c && negb (bool_decide (hi = Some 0%nat))
      then S <$> rep_parses p (pred lo) (pred <$> hi) s'
      else []
  | [] => []
  end ++ (if bool_decide (lo = 0%nat) then [0%nat] else []).

(** Every way [r] matches at the start of [s], as (number of characters
    consumed, groups), in the order a backtracking matcher finds them. *)
Fixpoint parses (r : regex) (s : list ascii) (g : groupdict)
    : list (nat * groupdict) :=
  match r with
  | Chr p =>
      match s with
      | c :: _ => if p c then [(1%nat, g)] else []
      | [] => []
      end
  | Repeat p lo hi => (fun j => (j, g)) <$> rep_parses p lo hi s
  | Seq a b =>
      x ← parses a s g;
      y ← parses b (drop x.1 s) x.2;
      [((x.1 + y.1)%nat, y.2)]
  | Alt a b => parses a s g ++ parses b s g
  | Group name a =>
      (fun x => (x.1, <[name := Some (string_of_list_ascii (take x.1 s))]> x.2))
        <$> parses a s g
  end.

(** [rx.match(spec)]: the first match at the start of the string, as
    ([m.end()], [m.groupdict()]); [None] when there is none. *)
Definition re_match (r : regex) (spec : string) : option (nat * groupdict) :=
  head (parses r (list_ascii_of_string spec) (no_groups r)).

(** The language of a pattern: the strings it matches in full. *)
Inductive matches : regex -> list ascii -> Prop :=
| matches_chr p c : p c = true -> matches (Chr p) [c]
| matches_repeat p lo hi s :
    Forall (fun c => p c = true) s ->
    (lo <= length s)%nat ->
    (forall h, hi = Some h -> (length s <= h)%nat) ->
    matches (Repeat p lo hi) s
| matches_seq a b s1 s2 :
    matches a s1 -> matches b s2 -> matches (Seq a b) (s1 ++ s2)
| matches_alt_l a b s : matches a s -> matches (Alt a b) s
| matches_alt_r a b s : matches b s -> matches (Alt a b) s
| matches_group name a s : matches a s -> matches (Group name a) s.

End Re.

(** ** [timetra/diary/utils.py] *)

Module Utils.

(** Decimal rendering of a non-negative integer, as [str.format] does. *)
Definition str_of_Z (n : Z) : string :=
  NilZero.string_of_uint (N.to_uint (Z.to_N n)).

(** [format_delta(delta)] with the default format ['{hours}:{minutes}']. *)
Definition format_delta (delta : timedelta) : string :=
  let hours := td_seconds delta / 3600 in
  let rem := td_seconds delta mod 3600 in
  let minutes := rem / 60 in
  (str_of_Z hours ++ ":" ++ str_of_Z minutes)%string.

(** *** [split_time], [parse_time], [parse_time_to_datetime], [parse_delta] *)

(** Tuple unpacking [a, b = xs]. *)
Definition unpack2 {A} (xs : list A) : result (A * A) :=
  match xs with
  | [a; b] => Ok (a, b)
  | _ => Raise (ValueError "wrong number of values to unpack")
  end.

(** [datetime.time(hours, minutes)] *)
Definition time_hm (h m : Z) : result time :=
  if negb ((0 <=? h) && (h <? 24)) then Raise (ValueError "hour must be in 0..23")
  else if negb ((0 <=? m) && (m <? 60)) then Raise (ValueError "minute must be in 0..59")
  else Ok (mk_time h m 0 0).

(** [dt.replace(microsecond=0)] *)
Definition dt_whole_second (d : datetime) : datetime := d - d mod us_per_second.

Section Parsing.

(** The interpreter's [int] on a string, and the clock's reading. *)
Variable py_int : string -> result Z.
Variable clock : datetime.

(** [_split]: the integer [0] of the two-character case is written as the
    empty string, which [int(x or 0)] reads alike. *)
Definition split_parts (s : string) : list string :=
  if Str.contains_char ":" s then Str.split ":" s
  else if (String.length s <=? 2)%nat then [EmptyString; s]
  else [Str.drop_last2 s; Str.last2 s].

Definition int_or_0 (x : string) : result Z :=
  match x with
  | EmptyString => Ok 0
  | _ => py_int x
  end.

Fixpoint ints (parts : list string) : result (list Z) :=
  match parts with
  | [] => Ok []
  | x :: parts' =>
      n ← int_or_0 x;
      ns ← ints parts';
      Ok (n :: ns)
  end.

Definition split_time (s : string) : result (list Z) := ints (split_parts s).

(** The call [parse_time(substring)] made for a string that holds no
    ['-']: neither the ['now-'] nor the ['-'] branch can be taken. *)
Definition parse_time_plain (s : string) : result (time * bool) :=
  if String.eqb s "now" then Ok (dt_time clock, false)
  else
    hm ← split_time s ≫= unpack2;
    t ← time_hm hm.1 hm.2;
    Ok (t, false).

Definition parse_time (s : string) : result (time * bool) :=
  if String.eqb s "now" then Ok (dt_time clock, false)
  else if String.prefix "now-" s then
    (* exactly two parts, so that [substring] holds no ['-'] *)
    parts ← unpack2 (Str.split "-" s);
    delta ← parse_time_plain parts.2;
    let start := clock - timedelta_hm (hour delta.1) (minute delta.1) in
    Ok (dt_time start, false)
  else
    let substract := String.prefix "-" s in
    let s := if substract then String.substring 1 (String.length s - 1)%nat s else s in
    hm ← split_time s ≫= unpack2;
    t ← time_hm hm.1 hm.2;
    Ok (t, substract).

Definition parse_time_to_datetime (s : option string)
    (relative_to : option datetime) (ensure_past_time : bool)
    : result (option datetime) :=
  if negb (Str.given s) then Ok None
  else
    let base_date := default clock relative_to in
    parsed ← parse_time (default EmptyString s);
    let date_time := dt_combine (dt_date base_date) parsed.1 in
    let base_date := dt_whole_second base_date in
    let date_time := dt_whole_second date_time in
    if ensure_past_time && (base_date <? date_time)
    then Ok (Some (date_time - timedelta_days 1))
    else Ok (Some date_time).

Definition parse_delta (s : option string) : result (option timedelta) :=
  if negb (Str.given s) then Ok None
  else
    hm ← split_time (default EmptyString s) ≫= unpack2;
    Ok (Some (timedelta_hm hm.1 hm.2)).

End Parsing.

(** *** [normalize_group] *)

(** A value handed to [normalize_group] as [since] or [until]: absent, an
    absolute [datetime], a clock time of day, or a signed duration. *)
Inductive bound : Type :=
| BNone
| BDatetime (d : datetime)
| BTime (t : time)
| BDelta (d : timedelta).

(** [since] after the first resolution block: resolved, or an instance of
    the local class [Lazy] waiting for [until]. *)
Inductive since_state : Type :=
| SinceAt (d : datetime)
| SinceLazy (value : timedelta).

Section NormalizeGroup.

(** Truth value of [datetime.time(0, 0)]: false before Python 3.5 (the
    module supports Python 2 and 3), true from 3.5 on. *)
Variable midnight_is_false : bool.

(** Python truth value of a bound. *)
Definition truthy (b : bound) : bool :=
  match b with
  | BNone => false
  | BDatetime _ => true
  | BTime t => negb (midnight_is_false && is_midnight t)
  | BDelta d => negb (d =? 0)
  end.

Definition bound_of_anchor (o : option datetime) : bound :=
  match o with
  | Some d => BDatetime d
  | None => BNone
  end.

(** Lines 216-233: the resolution of [since]. *)
Definition resolve_since (last : option datetime) (since : bound)
    (now : option datetime) : result since_state :=
  match since with
  | BDatetime d => Ok (SinceAt d)
  | BTime t =>
      match now with
      | None => Raise AttributeError
      | Some n =>
          let reftime := if time_lt t (dt_time n) then n
                         else n - timedelta_days 1 in
          s ← dt_replace_hm reftime (hour t) (minute t);
          match last with
          | None => Raise TypeError
          | Some l => if l <=? s then Ok (SinceAt s) else Raise (AssertionError Bare)
          end
      end
  | BDelta td =>
      if td_negative td then Ok (SinceLazy td)
      else match last with
           | None => Raise TypeError
           | Some l => Ok (SinceAt (l + td))
           end
  | BNone => Raise TypeError
  end.

(** Lines 235-242: the resolution of [until]. *)
Definition resolve_until (since : since_state) (until : bound)
    (now : option datetime) : result datetime :=
  match until with
  | BDatetime d => Ok d
  | BTime t =>
      match now with
      | None => Raise AttributeError
      | Some n => dt_replace_hm n (hour t) (minute t)
      end
  | BDelta td =>
      if td_negative td then
        match now with
        | None => Raise TypeError
        | Some n => Ok (n + td)
        end
      else
        match since with
        | SinceAt s => Ok (s + td)
        | SinceLazy _ => Raise TypeError
        end
  | BNone => Raise TypeError
  end.

Definition normalize_group (last : option datetime) (since until : bound)
    (now : option datetime) : result (datetime * datetime) :=
  if negb (truthy since || bool_decide (is_Some last)) then Raise (AssertionError Bare)
  else if negb (truthy until || bool_decide (is_Some now)) then Raise (AssertionError Bare)
  else
    let since := if truthy since then since else bound_of_anchor last in
    let until := if truthy until then until else bound_of_anchor now in
    since ← resolve_since last since now;
    until ← resolve_until since until now;
    let since := match since with
                 | SinceAt s => s
                 | SinceLazy value => until + value
                 end in
    if since <? until then Ok (since, until) else Raise (AssertionError Bare).

End NormalizeGroup.

(** *** [extract_date_time_bounds] *)

Import Re.

Definition is_digit (c : ascii) : bool :=
  let n := nat_of_ascii c in (48 <=? n)%nat && (n <=? 57)%nat.
Definition is_char (d c : ascii) : bool := Ascii.eqb d c.
Definition is_sign (c : ascii) : bool := is_char "+" c || is_char "-" c.

(** [[0-9]{0,2}:?[0-9]{1,2}] *)
Definition rx_time : regex :=
  Seq (Repeat is_digit 0 (Some 2%nat))
      (Seq (Repeat (is_char ":") 0 (Some 1%nat)) (Repeat is_digit 1 (Some 2%nat))).
(** [[+-]\d+] *)
Definition rx_rel : regex := Seq (Chr is_sign) (Repeat is_digit 1 None).
Definition rx_component : regex := Alt rx_time rx_rel.
Definition rx_separator : regex := Seq (Chr (is_char ".")) (Chr (is_char ".")).

Definition rxs : list regex :=
  [ (* all normal cases *)
    Seq (Group "since" rx_component) (Seq rx_separator (Group "until" rx_component));
    (* ultrashortcut 1230+5 *)
    Seq (Group "since" rx_time)
        (Group "until" (Seq (Chr (is_char "+")) (Repeat is_digit 1 None)));
    (* ultrashortcut +5 / -5 *)
    Group "since" rx_rel ].

Definition quote : string := String (ascii_of_nat 34) EmptyString.

Definition could_not_parse (spec : string) : pyerr :=
  ValueError ("Could not parse " ++ quote ++ spec ++ quote ++ " to time bounds ")%string.

Fixpoint first_match (rxs : list regex) (spec : string) : result groupdict :=
  match rxs with
  | [] => Raise (could_not_parse spec)
  | rx :: rxs' =>
      match re_match rx spec with
      | Some m => Ok m.2
      | None => first_match rxs' spec
      end
  end.

Definition extract_date_time_bounds (spec : string) : result groupdict :=
  first_match rxs spec.

(** [groups.get(key)] *)
Definition dict_get (groups : groupdict) (key : string) : option string :=
  mjoin (groups !! key).

Definition parse_date_time_bounds (spec : string)
    : result (option string * option string) :=
  groups ← extract_date_time_bounds spec;
  let since := dict_get groups "since" in
  let until := dict_get groups "until" in
  (* assert since or until: an empty string counts as absent *)
  if negb (bool_decide (since <> None /\ since <> Some ""%string)
           || bool_decide (until <> None /\ until <> Some ""%string))
  then Raise (AssertionError Bare)
  else Ok (since, until).

End Utils.

(** ** Hamster: facts and the storage handle *)

Module Hamster.

(** A Hamster [Fact].  [dry_run] is not a Hamster field: it is the
    attribute [storage.update_fact] creates with [setattr] when it is
    handed a [dry_run] keyword; facts read from Hamster do not have it. *)
Record Fact : Type := mk_fact {
  id : option Z;
  activity : string;
  category : option string;
  description : option string;
  tags : list string;
  start_time : datetime;
  end_time : option datetime;
  dry_run : option bool
}.

#[export] Instance fact_eq_dec : EqDecision Fact.
Proof. solve_decision. Defined.

(** [fact.delta]: the length of a closed fact; for an open one Hamster
    measures up to the present. *)
Definition delta (now : datetime) (f : Fact) : timedelta :=
  match end_time f with
  | Some e => e - start_time f
  | None => now - start_time f
  end.

(** The [date] argument of [get_facts]: callers pass a [date] or a
    [datetime]. *)
Inductive date_arg : Type :=
| AsDate (day : Z)
| AsDatetime (d : datetime).

End Hamster.
Import Hamster.

(** ** Effects: what a command prints, asks and writes *)

Module Effects.

(** The colourisers of [timetra.term]. *)
Inductive style : Type := Plain | Success | Warning | Failure.

(** A Python value shown in a report of changed fields. *)
Inductive pyval : Type :=
| VNone
| VBool (b : bool)
| VStr (s : string)
| VDatetime (d : datetime)
| VList (l : list string).

#[export] Instance pyval_eq_dec : EqDecision pyval.
Proof. solve_decision. Defined.

(** The question put to [argh.confirm] before a truncation:
    [Change  [orig prev]  ->  [new prev] [duration activity]]. *)
Record prompt : Type := mk_prompt {
  prev_activity : string;
  orig : string;
  new : string;
  duration : string;
  new_activity : option string
}.

(** A line a command yields. *)
Inductive line : Type :=
| Text (st : style) (s : string)
(* [Overlap: {names} (until {end_time})] *)
| OverlapLine (names : string) (until : option datetime)
(* [* {key}: {old} ->  {new} {note}], the note a signed difference *)
| ChangedLine (key : string) (old new : pyval) (note : option (bool * timedelta))
(* [{start}  [ {name}  +{duration} {right}] *)
| NowLine (start : datetime) (name : string) (duration : timedelta) (right : string).

Inductive event : Type :=
| Yield (l : line)
(* [argh.confirm(action, default=False)] and its answer *)
| Confirm (p : prompt) (answer : bool)
(* [hamster_storage.update_fact(fact.id, fact)] *)
| UpdateFact (fact_id : option Z) (f : Fact)
(* [hamster_storage.add_fact(fact)] *)
| AddFact (f : Fact).

Abbreviation trace := (list event).

Definition is_write (e : event) : bool :=
  match e with
  | UpdateFact _ _ | AddFact _ => true
  | _ => false
  end.

(** The calls that alter the storage, in order. *)
Definition writes (tr : trace) : list event := List.filter is_write tr.

(** A command: it extends the trace and returns or raises. *)
Definition M (A : Type) : Type := trace -> trace * result A.

#[export] Instance M_ret : MRet M := fun A a tr => (tr, Ok a).
#[export] Instance M_bind : MBind M := fun A B f m tr =>
  match m tr with
  | (tr', Ok a) => f a tr'
  | (tr', Raise e) => (tr', Raise e)
  end.

Definition emit (e : event) : M unit := fun tr => (tr ++ [e], Ok tt).
Definition raise {A} (e : pyerr) : M A := fun tr => (tr, Raise e).
Definition lift {A} (r : result A) : M A := fun tr => (tr, r).
Definition history : M trace := fun tr => (tr, Ok tr).

(** The storage handle [hamster.client.Storage]: what it answers depends
    on the calls made so far. *)
Record Storage : Type := mk_storage {
  get_facts : trace -> date_arg -> option date_arg -> string -> list Fact;
  get_activities : trace -> list (string * string)
}.

(** Everything outside the program. *)
Record Env : Type := mk_env {
  py_int : string -> result Z;             (* [int] on a string *)
  clock : datetime;                        (* [datetime.now()] *)
  hamster_storage : option Storage;        (* [storage.hamster_storage] *)
  confirm : prompt -> bool;                (* the user's answer *)
  unicode : Fact -> string                 (* [unicode(fact)] *)
}.

End Effects.
Import Effects.

(** ** [timetra/storage.py] *)

Module Storage.

(** [list(set(xs))]: the elements without repetition.  Python leaves the
    order of a set's elements open; the model enumerates them in the order
    of [elements]. *)
Definition list_of_set (xs : list string) : list string :=
  elements (list_to_set xs : gset string).

(** A keyword argument of [update_fact]: the fields callers set, and
    [dry_run]. *)
Inductive kwarg : Type :=
| KwStartTime (v : datetime)
| KwEndTime (v : option datetime)
| KwDryRun (v : bool)
| KwActivity (v : string)
| KwCategory (v : option string)
| KwDescription (v : option string)
| KwTags (v : list string).

(** [setattr(fact, key, value)] *)
Definition setattr (f : Fact) (kw : kwarg) : Fact :=
  match kw with
  | KwStartTime v =>
      mk_fact (id f) (activity f) (category f) (description f) (tags f) v (end_time f) (dry_run f)
  | KwEndTime v =>
      mk_fact (id f) (activity f) (category f) (description f) (tags f) (start_time f) v (dry_run f)
  | KwDryRun v =>
      mk_fact (id f) (activity f) (category f) (description f) (tags f) (start_time f) (end_time f) (Some v)
  | KwActivity v =>
      mk_fact (id f) v (category f) (description f) (tags f) (start_time f) (end_time f) (dry_run f)
  | KwCategory v =>
      mk_fact (id f) (activity f) v (description f) (tags f) (start_time f) (end_time f) (dry_run f)
  | KwDescription v =>
      mk_fact (id f) (activity f) (category f) v (tags f) (start_time f) (end_time f) (dry_run f)
  | KwTags v =>
      mk_fact (id f) (activity f) (category f) (description f) v (start_time f) (end_time f) (dry_run f)
  end.

Definition set_description (f : Fact) (v : option string) : Fact := setattr f (KwDescription v).
Definition set_tags (f : Fact) (v : list string) : Fact := setattr f (KwTags v).

Section WithEnv.

Variable env : Env.

(** The attribute access [hamster_storage.<method>]. *)
Definition storage_handle : M Storage :=
  match hamster_storage env with
  | Some hs => mret hs
  | None => raise AttributeError
  end.

Definition get_hamster_activity (name : string) : M (list (option string)) :=
  hs ← storage_handle;
  tr ← history;
  let activities := get_activities hs tr in
  (* look for exact matches *)
  let candidates := List.filter (fun d => String.eqb name d.1) activities in
  let candidates :=
    match candidates with
    | [] => (* look for partial matches *)
        List.filter (fun d => Str.contains name d.1) activities
    | _ => candidates
    end in
  match candidates with
  | [] => raise (AssertionError (Message ("unknown activity " ++ name)))
  | [d] => mret [Some d.1; Some d.2]
  | _ => raise (AssertionError (Ambiguous candidates))
  end.

Definition parse_activity (activity_mask : option string) : M (list (option string)) :=
  if Str.given activity_mask then
    let mask := default EmptyString activity_mask in
    if Str.contains_char "@" mask then mret (Some <$> Str.split "@" mask)
    else fun tr =>
      match get_hamster_activity mask tr with
      | (tr', Raise (AssertionError a)) => (tr', Raise (CommandErrorOf a))
      | r => r
      end
  else mret [Some "work"%string; None].

Definition get_facts_for_day (date end_date : option date_arg)
    (search_terms : string) : M (list Fact) :=
  let date := default (AsDate (dt_date (clock env))) date in
  match hamster_storage env with
  | None => raise (AssertionError Bare)
  | Some hs =>
      tr ← history;
      mret (get_facts hs tr date end_date search_terms)
  end.

Definition get_latest_fact (max_age_days : Z) : M (option Fact) :=
  if max_age_days =? 0 then raise (AssertionError Bare)
  else
    let now := clock env in
    facts ← get_facts_for_day (Some (AsDatetime now)) None EmptyString;
    facts ← match facts with
            | [] =>
                let start := now - timedelta_days (max_age_days - 1) in
                get_facts_for_day (Some (AsDatetime start)) (Some (AsDatetime now))
                                  EmptyString
            | _ => mret facts
            end;
    mret (last facts).

Definition get_current_fact : M (option Fact) :=
  fact ← get_latest_fact 2;
  match fact with
  | Some f => if bool_decide (end_time f = None) then mret (Some f) else mret None
  | None => mret None
  end.

Definition get_prev_end_time (require : bool) : M (option datetime) :=
  prev ← get_latest_fact 2;
  match prev with
  | None => raise (CommandError "Cannot find previous activity.")
  | Some prev =>
      if require && bool_decide (end_time prev = None)
      then raise (CommandError "Another activity is running.")
      else mret (end_time prev)
  end.

(** Truth value of a [timedelta]: zero is false. *)
Definition delta_given (delta : option timedelta) : option timedelta :=
  match delta with
  | Some d => if d =? 0 then None else Some d
  | None => None
  end.

(** [get_prev_end_time(require=True)] never returns [None]: the branches
    for an absent [prev] below are never reached. *)
Definition get_start_end (since until : option datetime)
    (delta : option timedelta) : M (datetime * datetime) :=
  prev ← get_prev_end_time true;
  let now := clock env in
  match since, until, delta_given delta with
  | Some since, Some until, _ => mret (since, until)
  | Some since, None, Some delta => mret (since, since + delta)
  | Some since, None, None => mret (since, now)
  | None, Some until, Some delta => mret (until - delta, until)
  | None, Some until, None =>
      match prev with
      | Some prev => mret (prev, until)
      | None => raise TypeError
      end
  | None, None, Some delta =>
      match prev with
      | Some prev => mret (prev, prev + delta)
      | None => raise TypeError
      end
  | None, None, None =>
      match prev with
      | Some prev => mret (prev, now)
      | None => raise TypeError
      end
  end.

(** Lines 171-182 of [update_fact]: the changes made to the fact object. *)
Definition updated (fact : Fact) (extra_tags : option (list string))
    (extra_description : option string) (kwargs : list kwarg) : Fact :=
  let fact := fold_left setattr kwargs fact in
  let fact :=
    if Str.given extra_description then
      let delta := clock env - start_time fact in
      let new_desc :=
        Str.strip (default EmptyString (description fact) ++ Str.newline ++ Str.newline
                   ++ "(+" ++ Utils.format_delta delta ++ ") "
                   ++ default EmptyString extra_description)%string in
      set_description fact (Some new_desc)
    else fact in
  match extra_tags with
  | Some (t :: ts) => set_tags fact (list_of_set (tags fact ++ t :: ts))
  | _ => fact
  end.

Definition update_fact (fact : Fact) (extra_tags : option (list string))
    (extra_description : option string) (kwargs : list kwarg) : M Fact :=
  let fact := updated fact extra_tags extra_description kwargs in
  _ ← storage_handle;
  _ ← emit (UpdateFact (id fact) fact);
  mret fact.

(** Modelled from the spec: [storage.add_fact], which [log_activity] calls
    as [add_fact(activity, start_time=, end_time=, description=, tags=,
    dry_run=)], is missing from [storage.py].  Section 6: [add_record]
    creates a new closed or open record from activity, category, tags,
    description, start and end time; section 4.6: in dry-run mode no write
    is issued to the storage collaborator.  The loose activity name is
    resolved by [parse_activity]. *)
Definition add_fact (loose_name : option string) (start_time end_time : datetime)
    (description : option string) (tags : list string) (dry_run : bool) : M Fact :=
  parsed ← parse_activity loose_name;
  ac ← lift (Utils.unpack2 parsed);
  let fact := mk_fact None (default EmptyString ac.1) ac.2 description tags
                      start_time (Some end_time) None in
  if dry_run then mret fact
  else
    _ ← storage_handle;
    _ ← emit (AddFact fact);
    mret fact.

End WithEnv.

End Storage.

(** ** [timetra/cli/__init__.py]

    The command module imports [timetra.utils], which is not among the
    sources; [timetra.diary.utils] defines the three helpers it uses
    ([parse_time_to_datetime], [parse_delta], [format_delta]) and stands
    for it.  Four names the command module takes from [storage] are not
    declared in [storage.py]: [add_fact], [StorageError],
    [ActivityMatchingError] and [CannotCreateFact].  The module cannot even
    be loaded without [StorageError], which the decorator of [log_activity]
    evaluates at import, so the four are read as declared in a part of
    [storage] that is not at hand, the classes as exception classes of
    their own: nothing modelled here raises them and the handlers that name
    them never fire.  (Were the two classes really absent, evaluating such
    a handler while an exception passes would raise [AttributeError] in
    the place of that exception.)  A command reads the clock once. *)

Module Cli.

Import Storage.

Definition HAMSTER_TAG_LOG : string := "timetra-log".

(** The parsed command line of [log_activity]. *)
Record Args : Type := mk_args {
  arg_activity : option string;
  amend : bool;
  arg_description : option string;
  arg_tags : option string;
  arg_since : option string;
  arg_until : option string;
  arg_duration : option string;
  between : option string;
  ppl : option string;
  arg_dry_run : bool
}.

(** The nested function [overlaps] of [log_activity]. *)
Definition overlaps (fact : Fact) (start_time end_time : datetime) : bool :=
  match Hamster.end_time fact with
  | None => true   (* previous activity is still open *)
  | Some fact_end =>
      if (fact_end <=? start_time) || (end_time <=? Hamster.start_time fact)
      then false
      else true
  end.

Section WithEnv.

Variable env : Env.

(** [parse_activity]: the handler for [storage.ActivityMatchingError]
    lets every error of [storage.parse_activity] pass. *)
Definition parse_activity (loose_name : option string) : M (list (option string)) :=
  Storage.parse_activity env loose_name.

Definition indent (s : string) : string :=
  Str.join Str.newline ((fun x => "       " ++ x)%string <$> Str.split (ascii_of_nat 10) s).

(** [now]: a short note about the latest fact. *)
Definition now : M unit :=
  fact ← get_latest_fact env 2;
  match fact with
  | Some fact =>
      let chart_right :=
        match end_time fact with
        | Some e =>
            let gap := clock env - e in
            if gap <? 60 * us_per_second then "]  just finished"%string
            else ("]  ... +" ++ Utils.format_delta gap)%string
        | None => "...>"%string
        end in
      _ ← emit (Yield (NowLine (start_time fact) (activity fact)
                               (delta (clock env) fact) chart_right));
      if Str.given (description fact) then
        _ ← emit (Yield (Text Plain EmptyString));
        emit (Yield (Text Plain (indent (default EmptyString (description fact)))))
      else mret tt
  | None => emit (Yield (Text Plain "--"))
  end.

(** *** [log_activity], lines 208-247: from the arguments to the interval *)

Definition log_tags (args : Args) : list string :=
  let tags := [HAMSTER_TAG_LOG] in
  let tags :=
    if Str.given (arg_tags args)
    then list_of_set (tags ++ Str.split "," (default EmptyString (arg_tags args)))
    else tags in
  if Str.given (ppl args)
  then tags ++ ((fun x => "with-" ++ x)%string <$> Str.split "," (default EmptyString (ppl args)))
  else tags.

Definition log_activity_interval (args : Args)
    : M (option Fact * datetime * datetime) :=
  match hamster_storage env with
  | None => raise (AssertionError Bare)
  | Some _ =>
  if negb (Str.given (arg_activity args)) && negb (amend args)
  then raise (CommandError "activity must be specified unless --amend is set")
  else
    su ← (if Str.given (between args) then
            if Str.given (arg_since args) || Str.given (arg_until args)
               || Str.given (arg_duration args)
            then raise (AssertionError (Message
                   "--since, --until and --duration must not be used with --between"))
            else
              pair ← lift (Utils.unpack2 (Str.split "-" (default EmptyString (between args))));
              mret (Some pair.1, Some pair.2)
          else mret (arg_since args, arg_until args));
    since ← lift (Utils.parse_time_to_datetime (py_int env) (clock env) su.1 None true);
    until ← lift (Utils.parse_time_to_datetime (py_int env) (clock env) su.2 None true);
    delta ← lift (Utils.parse_delta (py_int env) (arg_duration args));
    prev ← get_latest_fact env 2;
    su ← (if amend args then
            match prev with
            | None => raise (CommandError "Cannot amend: no fact found")
            | Some p =>
                (* FIXME this disables --duration *)
                mret (Some (default (start_time p) since),
                      match until with Some u => Some u | None => end_time p end)
            end
          else mret (since, until));
    se ← get_start_end env su.1 su.2 delta;
    if se.2 <? se.1 then raise (CommandError "--since must be earlier than --until")
    else if clock env <? se.2 then raise (CommandError "--until must not be in the future")
    else mret (prev, se.1, se.2)
  end.

(** *** Lines 249-298: the facts of the day that the interval overlaps *)

(** The list [overlap] for the facts Hamster returned. *)
Definition overlap (args : Args) (prev : option Fact) (start_time end_time : datetime)
    (todays_facts : list Fact) : list Fact :=
  let overlap := List.filter (fun f => overlaps f start_time end_time) todays_facts in
  if amend args then
    (* do not count last fact as overlapping if we are about to change it *)
    match prev with
    | Some prev =>
        List.filter (fun f => negb (String.eqb (unicode env f) (unicode env prev))) overlap
    | None => overlap
    end
  else overlap.

(** The confirmation question for cutting [prev_fact] at [start]. *)
Definition truncation_prompt (args : Args) (prev_fact : Fact)
    (prev_end start end_ : datetime) : prompt :=
  let orig_length := delta (clock env) prev_fact in
  let cut_delta := prev_end - start in
  let new_prev_fact_length := delta (clock env) prev_fact - cut_delta in
  {| prev_activity := activity prev_fact;
     orig := Utils.format_delta orig_length;
     new := Utils.format_delta new_prev_fact_length;
     duration := Utils.format_delta (end_ - start);
     new_activity := arg_activity args |}.

(** Returns whether the command goes on to record the interval. *)
Definition log_activity_reconcile (args : Args) (prev : option Fact)
    (start end_ : datetime) : M bool :=
  todays_facts ← get_facts_for_day env None None EmptyString;
  match overlap args prev start end_ todays_facts with
  | [] => mret true
  | [p] =>
      (* TODO: display (non-)overlapping duration *)
      _ ← emit (Yield (OverlapLine (Str.join ", " [activity p]) (end_time p)));
      if start <=? start_time p then
        _ ← emit (Yield (Text Failure "FAIL: new fact would replace an older one"));
        mret false
      else
        match end_time p with
        | None => raise TypeError   (* [prev_fact.end_time - start] *)
        | Some prev_end =>
            let action := truncation_prompt args p prev_end start end_ in
            let answer := confirm env action in
            _ ← emit (Confirm action answer);
            if answer then mret true
            else
              _ ← emit (Yield (Text Failure "Operation cancelled."));
              mret false
        end
  | _ =>
      _ ← emit (Yield (Text Failure "FAIL: too many overlapping facts"));
      mret false
  end.

(** *** Lines 300-367: recording the interval *)

(** [hasattr(fact, key) and getattr(fact, key) != kwargs[key]], with the
    line reported for a changed key. *)
Definition changed_line (fact : Fact) (kw : kwarg) : option line :=
  let dt_note (old : option datetime) (value : datetime) :=
    match old with
    | Some old => Some (if old <? value then (true, value - old) else (false, old - value))
    | None => None
    end in
  let opt_str (o : option string) := from_option VStr VNone o in
  let opt_dt (o : option datetime) := from_option VDatetime VNone o in
  match kw with
  | KwStartTime v =>
      if bool_decide (start_time fact <> v)
      then Some (ChangedLine "start_time" (VDatetime (start_time fact)) (VDatetime v)
                             (dt_note (Some (start_time fact)) v))
      else None
  | KwEndTime v =>
      if bool_decide (end_time fact <> v)
      then Some (ChangedLine "end_time" (opt_dt (end_time fact)) (opt_dt v)
                             (v ≫= dt_note (end_time fact)))
      else None
  | KwDryRun v =>
      match dry_run fact with
      | Some old => if bool_decide (old <> v)
                    then Some (ChangedLine "dry_run" (VBool old) (VBool v) None)
                    else None
      | None => None
      end
  | KwActivity v =>
      if bool_decide (activity fact <> v)
      then Some (ChangedLine "activity" (VStr (activity fact)) (VStr v) None)
      else None
  | KwCategory v =>
      if bool_decide (category fact <> v)
      then Some (ChangedLine "category" (opt_str (category fact)) (opt_str v) None)
      else None
  | KwDescription v =>
      if bool_decide (description fact <> v)
      then Some (ChangedLine "description" (opt_str (description fact)) (opt_str v) None)
      else None
  | KwTags v =>
      if bool_decide (tags fact <> v)
      then Some (ChangedLine "tags" (VList (tags fact)) (VList v) None)
      else None
  end.

Fixpoint yield_all (ls : list line) : M unit :=
  match ls with
  | [] => mret tt
  | l :: ls' => _ ← emit (Yield l); yield_all ls'
  end.

(** The keyword arguments of the amending [update_fact], in the order the
    source adds them to the dictionary. *)
Definition amend_kwargs (args : Args) (tags : list string) (start end_ : datetime)
    : M (list kwarg) :=
  let kwargs := [KwStartTime start; KwEndTime (Some end_); KwDryRun (arg_dry_run args)] in
  kwargs ← (if Str.given (arg_activity args) then
              parsed ← parse_activity (arg_activity args);
              ac ← lift (Utils.unpack2 parsed);
              mret (kwargs ++ [KwActivity (default EmptyString ac.1); KwCategory ac.2])
            else mret kwargs);
  let kwargs := if Str.given (arg_description args)
                then kwargs ++ [KwDescription (arg_description args)] else kwargs in
  mret (match tags with [] => kwargs | _ => kwargs ++ [KwTags tags] end).

(** Returns whether the closing report is still to be printed. *)
Definition log_activity_record (args : Args) (start end_ : datetime) : M bool :=
  let tags := log_tags args in
  if amend args then
    fact ← get_latest_fact env 2;
    kwargs ← amend_kwargs args tags start end_;
    let changed := match fact with
                   | Some fact => omap (changed_line fact) kwargs
                   | None => []
                   end in
    _ ← yield_all changed;
    match changed, fact with
    | _ :: _, Some fact =>
        _ ← Storage.update_fact env fact None None kwargs;
        mret true
    | _, _ =>
        _ ← emit (Yield (Text Failure "Nothing changed."));
        mret false
    end
  else
    _ ← add_fact env (arg_activity args) start end_ (arg_description args) tags
                 (arg_dry_run args);
    mret true.

(** Lines 363-367: the closing report. *)
Definition log_activity_report (args : Args) : M unit :=
  _ ← now;
  if arg_dry_run args
  then emit (Yield (Text Warning "(Dry run, nothing changed.)"))
  else mret tt.

(** Lines 300-367. *)
Definition log_activity_apply (args : Args) (start end_ : datetime) : M unit :=
  report ← log_activity_record args start end_;
  if report : bool then log_activity_report args else mret tt.

Definition log_activity (args : Args) : M unit :=
  r ← log_activity_interval args;
  go ← log_activity_reconcile args r.1.1 r.1.2 r.2;
  if go : bool then log_activity_apply args r.1.2 r.2 else mret tt.

End WithEnv.

End Cli.

(** ** Sample surroundings

    A clock, a Hamster that starts with given facts, an [int] for strings
    of digits, and command lines, used to run the model. *)

Module Sample.

Import Storage Cli.
Local Open Scope string_scope.

Definition digit_val (c : ascii) : option Z :=
  let n := nat_of_ascii c in
  if ((48 <=? n) && (n <=? 57))%nat then Some (Z.of_nat n - 48) else None.

Fixpoint digits_val (acc : Z) (s : string) : option Z :=
  match s with
  | EmptyString => Some acc
  | String c s' =>
      match digit_val c with
      | Some d => digits_val (10 * acc + d) s'
      | None => None
      end
  end.

(** [int] on strings of ASCII digits; anything else is refused. *)
Definition decimal_int (s : string) : result Z :=
  match s with
  | EmptyString => Raise (ValueError "invalid literal for int()")
  | _ => match digits_val 0 s with
         | Some n => Ok n
         | None => Raise (ValueError "invalid literal for int()")
         end
  end.

(** Day [day] at [h]:[m]. *)
Definition at_ (day h m : Z) : datetime :=
  day * us_per_day + h * us_per_hour + m * us_per_minute.

Definition reading : Fact :=
  mk_fact (Some 1) "reading" (Some "leisure") None [] (at_ 100 9 30) (Some (at_ 100 12 0)) None.
Definition coding : Fact :=
  mk_fact (Some 2) "coding" (Some "work") None [] (at_ 100 12 0) (Some (at_ 100 12 30)) None.
Definition nap : Fact :=
  mk_fact (Some 3) "nap" (Some "leisure") None [] (at_ 100 13 0) None None.

Definition walk : Fact :=
  mk_fact (Some 4) "walk" (Some "leisure") None [] (at_ 100 13 10) (Some (at_ 100 13 20)) None.

(** A plain store: it keeps the facts it is handed, replaces a fact when
    told to update it and appends one when told to add it. *)
Definition stored (facts : list Fact) (e : event) : list Fact :=
  match e with
  | UpdateFact i f => (fun g => if bool_decide (id g = i) then f else g) <$> facts
  | AddFact f => facts ++ [f]
  | _ => facts
  end.

Definition hamster_with (facts : list Fact) : Storage :=
  mk_storage (fun tr _ _ _ => fold_left stored tr facts)
             (fun _ => [("coding", "work"); ("reading", "leisure")]).

(** It is 16:00 on day 100; the user answers yes; a fact is rendered by
    its activity. *)
Definition env_with (facts : list Fact) : Env :=
  mk_env decimal_int (at_ 100 16 0) (Some (hamster_with facts)) (fun _ => true) activity.

Definition env : Env := env_with [reading; coding].

(** [timetra log --amend --since 10:00] *)
Definition amend_since_10 : Args :=
  mk_args None true None None (Some "10:00") None None None None false.
(** [timetra log --amend --since 12:30] *)
Definition amend_since_1230 : Args :=
  mk_args None true None None (Some "12:30") None None None None false.
(** [timetra log --amend --until 12:45 --dry-run] *)
Definition amend_dry_run : Args :=
  mk_args None true None None None (Some "12:45") None None None true.
(** [timetra log coding --since 13:00 --until 13:00] *)
Definition log_empty : Args :=
  mk_args (Some "coding") false None None (Some "13:00") (Some "13:00") None None None false.
(** [timetra log coding --since 11:00 --until 12:15] *)
Definition log_across : Args :=
  mk_args (Some "coding") false None None (Some "11:00") (Some "12:15") None None None false.
(** [timetra log coding --since 14:00 --until 15:30] *)
Definition log_afternoon : Args :=
  mk_args (Some "coding") false None None (Some "14:00") (Some "15:30") None None None false.

End Sample.

(** ** More of [timetra/diary/utils.py] *)

Module Components.

Import Utils.

(** An argument of [to_date] and [to_datetime]: a [datetime], a [date]
    (the ordinal of a day) or something else. *)
Inductive pyobj : Type :=
| ODatetime (d : datetime)
| ODate (day : Z)
| OOther.

Definition to_date (obj : pyobj) : result Z :=
  match obj with
  | ODatetime d => Ok (dt_date d)
  | ODate day => Ok day
  | OOther => Raise TypeError
  end.

Definition to_datetime (obj : pyobj) : result datetime :=
  match obj with
  | ODatetime d => Ok d
  | ODate day => Ok (dt_combine day (mk_time 0 0 0 0))
  | OOther => Raise TypeError
  end.

Section WithInt.

Variable py_int : string -> result Z.

Definition normalize_component (value : string) : result bound :=
  if String.prefix "+" value || String.prefix "-" value then
    hm ← split_time py_int (String.substring 1 (String.length value - 1)%nat value)
         ≫= unpack2;
    if negb (hm.2 <=? 60) then Raise (AssertionError Bare)
    else
      let delta := timedelta_hm hm.1 hm.2 in
      Ok (BDelta (if String.prefix "+" value then delta else - delta))
  else
    hm ← split_time py_int value ≫= unpack2;
    t ← time_hm hm.1 hm.2;
    Ok (BTime t).

End WithInt.

End Components.

(** ** More of [timetra/cli/__init__.py] *)

Module Commands.

Import Storage Cli.

(** A command that can also fail on a list index. *)
Inductive outcome (A : Type) : Type :=
| Finished (r : result A)
| IndexError.

Arguments Finished {A} r.
Arguments IndexError {A}.

(** [l[i]]: a negative index counts from the end. *)
Definition getitem {A} (l : list A) (i : Z) : option A :=
  let n := Z.of_nat (length l) in
  let i := if i <? 0 then i + n else i in
  if (0 <=? i) && (i <? n) then l !! Z.to_nat i else None.

Section WithEnv.

Variable env : Env.

(** [add_post_scriptum]: adds given text to the last logged fact. *)
Definition add_post_scriptum (text : list string) : M unit :=
  match hamster_storage env with
  | None => raise (AssertionError Bare)
  | Some _ =>
      fact ← get_latest_fact env 2;
      match fact with
      | None => raise (AssertionError Bare)
      | Some fact =>
          let text := Str.join " " text in
          _ ← Storage.update_fact env fact None (Some text) [];
          mret tt
      end
  end.

(** The command [update_fact] ([-n NUMBER], [--set-activity]). *)
Definition update_fact (number : Z) (set_activity : option string)
    : trace -> trace * outcome unit :=
  fun tr =>
    match get_facts_for_day env None None EmptyString tr with
    | (tr, Raise e) => (tr, Finished (Raise e))
    | (tr, Ok latest_facts) =>
        match getitem latest_facts (- number) with
        | None => (tr, IndexError)
        | Some fact =>
            let body : M unit :=
              if Str.given set_activity then
                _ ← emit (Yield (Text Plain ("Updating fact " ++ unicode env fact)%string));
                parsed ← parse_activity env set_activity;
                ac ← lift (Utils.unpack2 parsed);
                _ ← Storage.update_fact env fact None None
                      [KwActivity (default EmptyString ac.1); KwCategory ac.2];
                mret tt
              else emit (Yield (Text Failure "No arguments given.")) in
            ((body tr).1, Finished (body tr).2)
        end
    end.

End WithEnv.

End Commands.

(** ** [notification.py] *)

Module Notification.

Section Beep.

(** The frequencies and durations can be any objects: [beep] only applies
    [str] to them. *)
Context {A : Type}.
Variable str_ : A -> string.

(** [beep], called with pairs of a frequency and a duration: the argument
    list handed to [subprocess.Popen], [None] when beeps are disabled. *)
Definition beep (beep_enabled : bool) (pairs : list (A * A))
    : Commands.outcome (option (list string)) :=
  if negb beep_enabled then Commands.Finished (Ok None)
  else
    let beeps :=
      pairs ≫= (fun p => ["-f"; str_ p.1; "-l"; str_ p.2; "-n"]%string) in
    match beeps with
    | [] => Commands.IndexError   (* [beeps.pop()] on an empty list *)
    | _ => Commands.Finished (Ok (Some ("beep"%string :: removelast beeps)))
    end.

End Beep.

End Notification.

(** ** Vocabulary of the statements *)

Import Utils Re Storage Cli.

(** A keyword argument that replaces the tags. *)
Definition sets_tags (kw : kwarg) : bool :=
  match kw with
  | KwTags _ => true
  | _ => false
  end.

(** What Hamster returns for today when the overlap is computed. *)
Definition todays_facts (env : Env) (hs : Storage) (tr : trace) : list Fact :=
  get_facts hs tr (AsDate (dt_date (clock env))) None EmptyString.

(** The lines of the overlap check. *)
Definition too_many : event := Yield (Text Failure "FAIL: too many overlapping facts").
Definition would_replace : event :=
  Yield (Text Failure "FAIL: new fact would replace an older one").
Definition cancelled : event := Yield (Text Failure "Operation cancelled.").
Definition overlap_line (p : Fact) : event :=
  Yield (OverlapLine (activity p) (end_time p)).

(** An event of the recording phase says nothing of any fact but the one
    that holds the new interval. *)
Definition records_interval (start end_ : datetime) (e : event) : Prop :=
  match e with
  | Yield _ => True
  | Confirm _ _ => False
  | UpdateFact i f => i = id f /\ start_time f = start /\ end_time f = Some end_
  | AddFact f => id f = None /\ start_time f = start /\ end_time f = Some end_
  end.

(** A keyword argument that replaces the start or the end of a fact. *)
Definition sets_times (kw : kwarg) : bool :=
  match kw with
  | KwStartTime _ | KwEndTime _ => true
  | _ => false
  end.

(** A string has one of the three shapes when one of the patterns matches
    it in full. *)
Definition shape (p : string) : Prop :=
  exists rx, In rx rxs /\ matches rx (list_ascii_of_string p).

(** The characters a pattern can consume. *)
Fixpoint accepts (r : regex) (c : ascii) : bool :=
  match r with
  | Chr p | Repeat p _ _ => p c
  | Seq a b | Alt a b => accepts a c || accepts b c
  | Group _ a => accepts a c
  end.

(** The characters of bound expressions: digits, [:], [.], [+] and [-]. *)
Definition bound_char (c : ascii) : bool :=
  is_digit c || is_char ":" c || is_char "." c || is_sign c.

(** The command line [args] with [--since] and [--until] in the place of
    [--between]. *)
Definition with_bounds (args : Args) (since until : string) : Args :=
  mk_args (arg_activity args) (amend args) (arg_description args) (arg_tags args)
          (Some since) (Some until) (arg_duration args) None (ppl args) (arg_dry_run args).



(** * Properties *)

(** ** Running commands *)

Lemma bind_run {A B} (m : M A) (f : A -> M B) (tr : trace) :
  (m ≫= f) tr =
  match m tr with
  | (tr', Ok a) => f a tr'
  | (tr', Raise e) => (tr', Raise e)
  end.
Proof. reflexivity. Qed.

(** ** Overlapping facts *)

Lemma filter_permutation {A} (p : A -> bool) (l l' : list A) :
  Permutation l l' -> Permutation (List.filter p l) (List.filter p l').
Proof.
  induction 1 as [|x l l' _ IH|x y l|l l' l'' _ IH1 _ IH2]; simpl.
  - constructor.
  - destruct (p x); [constructor|]; exact IH.
  - destruct (p x), (p y); try reflexivity. constructor.
  - etransitivity; eassumption.
Qed.

Lemma overlaps_spec (f : Fact) (start end_ : datetime) :
  overlaps f start end_ = true <->
  end_time f = None \/
  exists fact_end, end_time f = Some fact_end /\ start < fact_end /\ start_time f < end_.
Proof.
  unfold overlaps. destruct (end_time f) as [fe|].
  - destruct (Z.leb_spec fe start) as [Hs|Hs];
      destruct (Z.leb_spec end_ (start_time f)) as [He|He]; simpl;
      (split; [intros Hov; try discriminate Hov
              |intros [Hnone|(x & Hx & Ha & Hb)];
               [discriminate Hnone|injection Hx as <-; try lia; try reflexivity]]).
    right. exists fe. repeat split; lia.
  - split; auto.
Qed.

(** C8. A fact overlaps the interval from [start] to [end_] exactly when it
    is open or [start] is before its end and [end_] after its start; the
    list of overlapping facts is the day's list filtered by that test (and,
    when amending, by not being rendered like the latest fact), so scanning
    the day's facts in another order gives the same facts. *)
Theorem overlap_is_order_independent (env : Env) (args : Args) (prev : option Fact)
    (start end_ : datetime) :
  (forall f, overlaps f start end_ = true <->
             end_time f = None \/
             exists fact_end, end_time f = Some fact_end /\
                              start < fact_end /\ end_ > start_time f) /\
  (forall todays_facts f,
     In f (overlap env args prev start end_ todays_facts) <->
     In f todays_facts /\ overlaps f start end_ = true /\
     (amend args = true -> forall p, prev = Some p -> unicode env f <> unicode env p)) /\
  (forall todays_facts scanned,
     Permutation todays_facts scanned ->
     Permutation (overlap env args prev start end_ todays_facts)
                 (overlap env args prev start end_ scanned)).
Proof.
  split; [|split].
  - intros f. rewrite overlaps_spec.
    split; (intros [H|(x & H1 & H2 & H3)]; [left; exact H|right; exists x; repeat split; try assumption; lia]).
  - intros l f. unfold overlap.
    destruct (amend args); [destruct prev as [p|]|].
    + rewrite !filter_In, negb_true_iff, String.eqb_neq. split.
      * intros [[H1 H2] H3]. split; [exact H1|split; [exact H2|]].
        intros _ p' Hp. injection Hp as <-. exact H3.
      * intros (H1 & H2 & H3). split; [split; assumption|]. apply H3; reflexivity.
    + rewrite filter_In. split.
      * intros [H1 H2]. split; [exact H1|split; [exact H2|]]. intros _ p' Hp. discriminate Hp.
      * intros (H1 & H2 & _). split; assumption.
    + rewrite filter_In. split.
      * intros [H1 H2]. split; [exact H1|split; [exact H2|]]. intros Hf. discriminate Hf.
      * intros (H1 & H2 & _). split; assumption.
  - intros l l' Hperm. unfold overlap.
    destruct (amend args); [destruct prev|]; repeat apply filter_permutation; exact Hperm.
Qed.

Lemma overlap_is_order_independent_witness :
  Permutation
    (overlap Sample.env Sample.log_across None (Sample.at_ 100 11 0) (Sample.at_ 100 12 15)
             [Sample.reading; Sample.coding])
    (overlap Sample.env Sample.log_across None (Sample.at_ 100 11 0) (Sample.at_ 100 12 15)
             [Sample.coding; Sample.reading]).
Proof.
  apply (proj2 (proj2 (overlap_is_order_independent Sample.env Sample.log_across None
                         (Sample.at_ 100 11 0) (Sample.at_ 100 12 15)))).
  apply perm_swap.
Defined.

(** ** Merging tags *)

Lemma setattr_tags (f : Fact) (kw : kwarg) :
  sets_tags kw = false -> tags (setattr f kw) = tags f.
Proof. destruct kw; simpl; intros; congruence. Qed.

Lemma fold_setattr_tags (kwargs : list kwarg) (f : Fact) :
  Forall (fun kw => sets_tags kw = false) kwargs ->
  tags (fold_left setattr kwargs f) = tags f.
Proof.
  intros H. revert f. induction H as [|kw kws Hkw _ IH]; intros f; simpl.
  - reflexivity.
  - rewrite IH. apply setattr_tags, Hkw.
Qed.

Lemma updated_tags (env : Env) (fact : Fact) (extra_tags : option (list string))
    (extra_description : option string) (kwargs : list kwarg) :
  tags (updated env fact extra_tags extra_description kwargs) =
  match extra_tags with
  | Some (t :: ts) => list_of_set (tags (fold_left setattr kwargs fact) ++ t :: ts)
  | _ => tags (fold_left setattr kwargs fact)
  end.
Proof.
  unfold updated.
  destruct (Str.given extra_description); destruct extra_tags as [[|t ts]|]; reflexivity.
Qed.

Lemma list_of_set_set (xs : list string) :
  list_to_set (list_of_set xs) =@{gset string} list_to_set xs.
Proof. unfold list_of_set. apply list_to_set_elements_L. Qed.

Lemma updated_tag_set (env : Env) (fact : Fact) (extra : list string)
    (extra_description : option string) (kwargs : list kwarg) :
  list_to_set (tags (updated env fact (Some extra) extra_description kwargs))
  =@{gset string}
  list_to_set (tags (fold_left setattr kwargs fact)) ∪ list_to_set extra.
Proof.
  rewrite updated_tags. destruct extra as [|t ts].
  - rewrite list_to_set_nil. set_solver.
  - rewrite list_of_set_set. apply list_to_set_app_L.
Qed.

(** C9. [update_fact] with extra tags (and no [tags] keyword) writes a
    fact whose tags are, as a set, the union of the tags it had and the
    extra ones: no stored tag is lost, the written list has no duplicate
    once something was merged, and merging two lists of extra tags gives the
    same set in either order. *)
Theorem update_fact_merges_tags (env : Env) (hs : Storage) (fact : Fact)
    (extra : list string) (extra_description : option string)
    (kwargs : list kwarg) (tr : trace) :
  hamster_storage env = Some hs ->
  Forall (fun kw => sets_tags kw = false) kwargs ->
  exists fact',
    update_fact env fact (Some extra) extra_description kwargs tr
      = (tr ++ [UpdateFact (id fact') fact'], Ok fact') /\
    list_to_set (tags fact') =@{gset string} list_to_set (tags fact) ∪ list_to_set extra /\
    (forall t, t ∈ tags fact -> t ∈ tags fact') /\
    (extra <> [] -> NoDup (tags fact')) /\
    (forall other,
       list_to_set (tags (updated env fact' (Some other) None []))
       =@{gset string}
       list_to_set (tags (updated env (updated env fact (Some other) None [])
                                  (Some extra) extra_description kwargs))).
Proof.
  intros Hhs Hkw.
  exists (updated env fact (Some extra) extra_description kwargs).
  assert (Hset : forall f e d k, Forall (fun kw => sets_tags kw = false) k ->
            list_to_set (tags (updated env f (Some e) d k))
            =@{gset string} list_to_set (tags f) ∪ list_to_set e).
  { intros f e d k Hk. rewrite updated_tag_set, (fold_setattr_tags k f Hk). reflexivity. }
  split; [|split; [|split; [|split]]].
  - unfold update_fact, storage_handle. rewrite Hhs. reflexivity.
  - apply Hset, Hkw.
  - intros t Ht.
    apply (elem_of_list_to_set (C:=gset string)). rewrite (Hset _ _ _ _ Hkw).
    apply elem_of_union_l, elem_of_list_to_set, Ht.
  - intros Hne. rewrite updated_tags. destruct extra as [|t ts]; [congruence|].
    unfold list_of_set. apply NoDup_elements.
  - intros other.
    rewrite (Hset _ other None [] (List.Forall_nil _)), (Hset _ extra _ _ Hkw).
    rewrite (Hset _ extra _ _ Hkw), (Hset _ other None [] (List.Forall_nil _)).
    set_solver.
Qed.

Lemma update_fact_merges_tags_witness :
  exists fact',
    update_fact Sample.env Sample.coding (Some ["a"; "b"; "a"]%string) None [KwEndTime None] []
      = ([] ++ [UpdateFact (id fact') fact'], Ok fact') /\
    list_to_set (tags fact') =@{gset string}
      list_to_set (tags Sample.coding) ∪ list_to_set ["a"; "b"; "a"]%string /\
    (forall t, t ∈ tags Sample.coding -> t ∈ tags fact') /\
    (["a"; "b"; "a"]%string <> [] -> NoDup (tags fact')) /\
    (forall other,
       list_to_set (tags (updated Sample.env fact' (Some other) None []))
       =@{gset string}
       list_to_set (tags (updated Sample.env (updated Sample.env Sample.coding (Some other) None [])
                                  (Some ["a"; "b"; "a"]%string) None [KwEndTime None]))).
Proof.
  apply (update_fact_merges_tags Sample.env (Sample.hamster_with [Sample.reading; Sample.coding])).
  - reflexivity.
  - repeat constructor.
Defined.

(** ** Resolving the interval in [storage.py] *)

Lemma get_facts_for_day_run (env : Env) (date end_date : option date_arg)
    (terms : string) (tr : trace) :
  get_facts_for_day env date end_date terms tr =
  match hamster_storage env with
  | None => (tr, Raise (AssertionError Bare))
  | Some hs =>
      (tr, Ok (get_facts hs tr (default (AsDate (dt_date (clock env))) date) end_date terms))
  end.
Proof. unfold get_facts_for_day. destruct (hamster_storage env); reflexivity. Qed.

(** Reading the latest fact leaves the trace as it is. *)
Lemma get_latest_fact_trace (env : Env) (n : Z) (tr : trace) :
  (get_latest_fact env n tr).1 = tr.
Proof.
  unfold get_latest_fact. destruct (n =? 0); [reflexivity|].
  rewrite bind_run, get_facts_for_day_run.
  destruct (hamster_storage env) as [hs|] eqn:Hhs; [|reflexivity].
  rewrite bind_run.
  destruct (get_facts hs tr _ None _); [|reflexivity].
  rewrite get_facts_for_day_run, Hhs. reflexivity.
Qed.

Lemma get_prev_end_time_run (env : Env) (require : bool) (tr : trace) :
  get_prev_end_time env require tr =
  match get_latest_fact env 2 tr with
  | (tr', Ok None) => (tr', Raise (CommandError "Cannot find previous activity."))
  | (tr', Ok (Some prev)) =>
      if require && bool_decide (end_time prev = None)
      then (tr', Raise (CommandError "Another activity is running."))
      else (tr', Ok (end_time prev))
  | (tr', Raise e) => (tr', Raise e)
  end.
Proof.
  unfold get_prev_end_time. rewrite bind_run.
  destruct (get_latest_fact env 2 tr) as [tr' [[prev|]|e]]; try reflexivity.
  destruct (require && bool_decide (end_time prev = None)); reflexivity.
Qed.

(** C3, as the code has it.  [get_start_end] asks for the end of the latest
    fact before it looks at its arguments: with no previous fact it fails
    with "Cannot find previous activity.", with an open one with "Another
    activity is running.", whatever [since] and [until] are; when the
    latest fact is closed and both [since] and [until] are given, it
    returns them.  [normalize_group], for its part, does not look at [last]
    when both bounds are absolute: it returns them when [since < until]. *)
Theorem get_start_end_asks_for_previous (env : Env) (since until : option datetime)
    (delta : option timedelta) (tr : trace) :
  (get_latest_fact env 2 tr = (tr, Ok None) ->
   get_start_end env since until delta tr
     = (tr, Raise (CommandError "Cannot find previous activity."))) /\
  (forall prev,
     get_latest_fact env 2 tr = (tr, Ok (Some prev)) ->
     end_time prev = None ->
     get_start_end env since until delta tr
       = (tr, Raise (CommandError "Another activity is running."))) /\
  (forall prev prev_end s u,
     get_latest_fact env 2 tr = (tr, Ok (Some prev)) ->
     end_time prev = Some prev_end ->
     since = Some s -> until = Some u ->
     get_start_end env since until delta tr = (tr, Ok (s, u))) /\
  (forall midnight_is_false last now s u,
     normalize_group midnight_is_false last (BDatetime s) (BDatetime u) now
     = if s <? u then Ok (s, u) else Raise (AssertionError Bare)).
Proof.
  unfold get_start_end. rewrite bind_run, get_prev_end_time_run.
  split; [|split; [|split]].
  - intros ->. reflexivity.
  - intros prev -> ->. reflexivity.
  - intros prev e s u -> -> -> ->. reflexivity.
  - intros mf last now s u. reflexivity.
Qed.

Lemma get_start_end_asks_for_previous_witness :
  get_start_end Sample.env (Some (Sample.at_ 100 14 0)) (Some (Sample.at_ 100 15 30)) None []
  = ([], Ok (Sample.at_ 100 14 0, Sample.at_ 100 15 30)).
Proof.
  apply (proj1 (proj2 (proj2 (get_start_end_asks_for_previous Sample.env
                         (Some (Sample.at_ 100 14 0)) (Some (Sample.at_ 100 15 30)) None [])))
               Sample.coding (Sample.at_ 100 12 30)); reflexivity.
Defined.

(** C3 as stated fails: with both bounds absolute, resolution still fails
    when Hamster holds no fact, and when the latest fact is open. *)
Lemma get_start_end_without_previous :
  get_start_end (Sample.env_with []) (Some (Sample.at_ 100 14 0))
                (Some (Sample.at_ 100 15 30)) None []
  = ([], Raise (CommandError "Cannot find previous activity.")) /\
  get_start_end (Sample.env_with [Sample.nap]) (Some (Sample.at_ 100 14 0))
                (Some (Sample.at_ 100 15 30)) None []
  = ([], Raise (CommandError "Another activity is running.")) /\
  (get_start_end (Sample.env_with []) (Some (Sample.at_ 100 14 0))
                 (Some (Sample.at_ 100 15 30)) None []).2
  <> Ok (Sample.at_ 100 14 0, Sample.at_ 100 15 30).
Proof. repeat split. discriminate. Qed.

(** ** Bugs shown by running the command *)

(** C4: [log_activity] rejects only [end < start].  For
    [--since 13:00 --until 13:00] the interval phase returns the empty
    interval from 13:00 to 13:00, and amending with [--since 12:30] a fact
    that ends at 12:30 writes a fact of length zero. *)
Theorem log_activity_accepts_empty_interval :
  log_activity_interval Sample.env Sample.log_empty []
  = ([], Ok (Some Sample.coding, Sample.at_ 100 13 0, Sample.at_ 100 13 0)) /\
  writes (log_activity Sample.env Sample.amend_since_1230 []).1
  = [UpdateFact (Some 2)
       (mk_fact (Some 2) "coding" (Some "work"%string) None ["timetra-log"%string]
                (Sample.at_ 100 12 30) (Some (Sample.at_ 100 12 30)) (Some false))] /\
  (log_activity Sample.env Sample.amend_since_1230 []).2 = Ok tt.
Proof. split; [|split]; vm_compute; reflexivity. Qed.

(** C2: amending with [--dry-run] still calls Hamster's [update_fact]:
    [storage.update_fact] takes [dry_run] for a field of the fact and
    writes.  The command then reports that nothing changed. *)
Theorem log_activity_dry_run_writes :
  arg_dry_run Sample.amend_dry_run = true /\
  writes (log_activity Sample.env Sample.amend_dry_run []).1
  = [UpdateFact (Some 2)
       (mk_fact (Some 2) "coding" (Some "work"%string) None ["timetra-log"%string]
                (Sample.at_ 100 12 0) (Some (Sample.at_ 100 12 45)) (Some true))] /\
  last (log_activity Sample.env Sample.amend_dry_run []).1
  = Some (Yield (Text Warning "(Dry run, nothing changed.)")) /\
  (log_activity Sample.env Sample.amend_dry_run []).2 = Ok tt.
Proof. repeat split; vm_compute; reflexivity. Qed.

(** ** Clock times in [normalize_group] *)

(** [dt.replace(hour=h, minute=m)] stays on the day of [d], shows [h] and
    [m], and keeps the seconds and microseconds of [d]. *)
Lemma dt_replace_hm_fields (d : datetime) (h m : Z) :
  0 <= h < 24 -> 0 <= m < 60 ->
  exists s,
    dt_replace_hm d h m = Ok s /\
    dt_date s = dt_date d /\
    hour (dt_time s) = h /\ minute (dt_time s) = m /\
    second (dt_time s) = second (dt_time d) /\
    microsecond (dt_time s) = microsecond (dt_time d).
Proof.
  intros Hh Hm. unfold dt_replace_hm.
  replace ((0 <=? h) && (h <? 24)) with true by (symmetry; apply andb_true_iff; lia).
  replace ((0 <=? m) && (m <? 60)) with true by (symmetry; apply andb_true_iff; lia).
  simpl. eexists. split; [reflexivity|].
  unfold dt_date, dt_time, hour, minute, second, microsecond,
    us_per_day, us_per_hour, us_per_minute, us_per_second.
  simpl Z.mul.
  repeat split; Z.div_mod_to_equations; lia.
Qed.

Lemma dt_date_yesterday (d : datetime) :
  dt_date (d - timedelta_days 1) = dt_date d - 1.
Proof.
  unfold dt_date, timedelta_days, us_per_day, us_per_hour, us_per_minute, us_per_second.
  simpl Z.mul. Z.div_mod_to_equations; lia.
Qed.

Lemma dt_time_yesterday (d : datetime) :
  dt_time (d - timedelta_days 1) = dt_time d.
Proof.
  unfold dt_time, timedelta_days. f_equal;
    replace ((d - 1 * us_per_day) mod us_per_day) with (d mod us_per_day); try reflexivity;
    unfold us_per_day, us_per_hour, us_per_minute, us_per_second;
    simpl Z.mul; Z.div_mod_to_equations; lia.
Qed.

(** The anchor of a clock time given as [since]: today when the time is
    before now's time of day, yesterday otherwise. *)
Lemma resolve_since_time (t : time) (n : datetime) :
  valid_time t ->
  exists s,
    dt_date s = (if time_lt t (dt_time n) then dt_date n else dt_date n - 1) /\
    hour (dt_time s) = hour t /\ minute (dt_time s) = minute t /\
    second (dt_time s) = second (dt_time n) /\
    microsecond (dt_time s) = microsecond (dt_time n) /\
    forall last,
      resolve_since last (BTime t) (Some n) =
      match last with
      | None => Raise TypeError
      | Some l => if l <=? s then Ok (SinceAt s) else Raise (AssertionError Bare)
      end.
Proof.
  intros (Hh & Hm & _).
  set (reftime := if time_lt t (dt_time n) then n else n - timedelta_days 1).
  destruct (dt_replace_hm_fields reftime (hour t) (minute t) Hh Hm)
    as (s & Hs & Hd & Hhour & Hmin & Hsec & Hus).
  assert (Hday : dt_date reftime
                 = if time_lt t (dt_time n) then dt_date n else dt_date n - 1).
  { unfold reftime. destruct (time_lt t (dt_time n)); [reflexivity|].
    apply dt_date_yesterday. }
  assert (Htime : dt_time reftime = dt_time n).
  { unfold reftime. destruct (time_lt t (dt_time n)); [reflexivity|].
    apply dt_time_yesterday. }
  exists s.
  split; [congruence|]. split; [exact Hhour|]. split; [exact Hmin|].
  split; [congruence|]. split; [congruence|].
  intros last. unfold resolve_since. fold reftime. rewrite Hs. reflexivity.
Qed.

Lemma resolve_until_time (t : time) (n : datetime) :
  valid_time t ->
  exists u,
    dt_date u = dt_date n /\
    hour (dt_time u) = hour t /\ minute (dt_time u) = minute t /\
    second (dt_time u) = second (dt_time n) /\
    microsecond (dt_time u) = microsecond (dt_time n) /\
    forall since, resolve_until since (BTime t) (Some n) = Ok u.
Proof.
  intros (Hh & Hm & _).
  destruct (dt_replace_hm_fields n (hour t) (minute t) Hh Hm)
    as (u & Hu & Hd & Hhour & Hmin & Hsec & Hus).
  exists u. repeat (split; [assumption|]). intros since. exact Hu.
Qed.

(** C7, as the code has it.  A clock time given as [since] is anchored to
    today when it is strictly before now's time of day and to yesterday
    otherwise (also when the two are equal); it keeps now's seconds and
    microseconds, and a result earlier than [last] is rejected.  A clock
    time given as [until] is always anchored to today. *)
Theorem normalize_group_anchors_clock_times (midnight_is_false : bool)
    (t : time) (n : datetime) :
  valid_time t ->
  truthy midnight_is_false (BTime t) = true ->
  (exists s,
     dt_date s = (if time_lt t (dt_time n) then dt_date n else dt_date n - 1) /\
     hour (dt_time s) = hour t /\ minute (dt_time s) = minute t /\
     second (dt_time s) = second (dt_time n) /\
     microsecond (dt_time s) = microsecond (dt_time n) /\
     (forall l u,
        normalize_group midnight_is_false (Some l) (BTime t) (BDatetime u) (Some n) =
        if l <=? s
        then if s <? u then Ok (s, u) else Raise (AssertionError Bare)
        else Raise (AssertionError Bare)) /\
     (forall last until r,
        normalize_group midnight_is_false last (BTime t) until (Some n) = Ok r ->
        r.1 = s /\ exists l, last = Some l /\ l <= s)) /\
  (exists u,
     dt_date u = dt_date n /\
     hour (dt_time u) = hour t /\ minute (dt_time u) = minute t /\
     second (dt_time u) = second (dt_time n) /\
     microsecond (dt_time u) = microsecond (dt_time n) /\
     (forall last s,
        normalize_group midnight_is_false last (BDatetime s) (BTime t) (Some n) =
        if s <? u then Ok (s, u) else Raise (AssertionError Bare)) /\
     (forall last since r,
        normalize_group midnight_is_false last since (BTime t) (Some n) = Ok r ->
        r.2 = u)).
Proof.
  intros Hvalid Htruthy. split.
  - destruct (resolve_since_time t n Hvalid) as (s & Hd & Hh & Hm & Hs & Hus & Hr).
    exists s. repeat (split; [assumption|]). split.
    + intros l u. unfold normalize_group. rewrite Htruthy. cbn [orb negb truthy].
      rewrite Hr. destruct (l <=? s); reflexivity.
    + intros last until r. unfold normalize_group. rewrite Htruthy. cbn [orb negb].
      destruct (negb _); [discriminate|].
      rewrite Hr. destruct last as [l|]; [|discriminate].
      destruct (Z.leb_spec l s) as [Hle|Hgt]; [|discriminate].
      cbn [mbind result_bind].
      destruct (resolve_until _ _ _) as [u|e]; simpl; [|discriminate].
      destruct (s <? u); [|discriminate].
      intros [= <-]. split; [reflexivity|]. exists l. split; [reflexivity|exact Hle].
  - destruct (resolve_until_time t n Hvalid)
      as (u & Hd & Hh & Hm & Hs & Hus & Hr).
    exists u. repeat (split; [assumption|]). split.
    + intros last s. unfold normalize_group. rewrite Htruthy.
      cbn [orb negb truthy resolve_since mbind result_bind].
      rewrite Hr. reflexivity.
    + intros last since r. unfold normalize_group. rewrite Htruthy.
      destruct (negb _); [discriminate|]. cbn [orb negb].
      destruct (resolve_since _ _ _) as [st|e]; [|discriminate].
      unfold mbind at 1, result_bind at 1. rewrite Hr. simpl.
      destruct (_ <? u); [|discriminate]. intros [= <-]. reflexivity.
Qed.

Lemma normalize_group_anchors_clock_times_witness :
  (exists s,
     dt_date s = (if time_lt (mk_time 20 50 0 0) (dt_time (Sample.at_ 100 20 30))
                  then dt_date (Sample.at_ 100 20 30)
                  else dt_date (Sample.at_ 100 20 30) - 1) /\
     hour (dt_time s) = 20 /\ minute (dt_time s) = 50 /\
     second (dt_time s) = second (dt_time (Sample.at_ 100 20 30)) /\
     microsecond (dt_time s) = microsecond (dt_time (Sample.at_ 100 20 30)) /\
     (forall l u,
        normalize_group true (Some l) (BTime (mk_time 20 50 0 0)) (BDatetime u)
                        (Some (Sample.at_ 100 20 30)) =
        if l <=? s
        then if s <? u then Ok (s, u) else Raise (AssertionError Bare)
        else Raise (AssertionError Bare)) /\
     (forall last until r,
        normalize_group true last (BTime (mk_time 20 50 0 0)) until
                        (Some (Sample.at_ 100 20 30)) = Ok r ->
        r.1 = s /\ exists l, last = Some l /\ l <= s)) /\
  (exists u,
     dt_date u = dt_date (Sample.at_ 100 20 30) /\
     hour (dt_time u) = 20 /\ minute (dt_time u) = 50 /\
     second (dt_time u) = second (dt_time (Sample.at_ 100 20 30)) /\
     microsecond (dt_time u) = microsecond (dt_time (Sample.at_ 100 20 30)) /\
     (forall last s,
        normalize_group true last (BDatetime s) (BTime (mk_time 20 50 0 0))
                        (Some (Sample.at_ 100 20 30)) =
        if s <? u then Ok (s, u) else Raise (AssertionError Bare)) /\
     (forall last since r,
        normalize_group true last since (BTime (mk_time 20 50 0 0))
                        (Some (Sample.at_ 100 20 30)) = Ok r ->
        r.2 = u)).
Proof.
  apply (normalize_group_anchors_clock_times true (mk_time 20 50 0 0) (Sample.at_ 100 20 30)).
  - unfold valid_time; simpl; lia.
  - reflexivity.
Defined.

(** C7 as stated fails for [until]: at 20:30, an [until] of 20:50 is not
    before now's time of day, yet it is anchored to today (and lies in the
    future), on either kind of interpreter. *)
Lemma normalize_group_until_stays_today :
  time_lt (mk_time 20 50 0 0) (dt_time (Sample.at_ 100 20 30)) = false /\
  normalize_group false (Some (Sample.at_ 100 18 0)) (BDatetime (Sample.at_ 100 19 0))
                  (BTime (mk_time 20 50 0 0)) (Some (Sample.at_ 100 20 30))
  = Ok (Sample.at_ 100 19 0, Sample.at_ 100 20 50) /\
  normalize_group true (Some (Sample.at_ 100 18 0)) (BDatetime (Sample.at_ 100 19 0))
                  (BTime (mk_time 20 50 0 0)) (Some (Sample.at_ 100 20 30))
  = Ok (Sample.at_ 100 19 0, Sample.at_ 100 20 50) /\
  dt_date (Sample.at_ 100 20 50) = dt_date (Sample.at_ 100 20 30) /\
  dt_date (Sample.at_ 100 20 50) <> dt_date (Sample.at_ 100 20 30) - 1.
Proof. repeat split; vm_compute; first [reflexivity|discriminate]. Qed.

(** ** [log_activity]: the phases and their traces *)

Lemma lift_run {A} (r : result A) (tr : trace) : lift r tr = (tr, r).
Proof. reflexivity. Qed.

Lemma get_latest_fact_run (env : Env) (n : Z) (tr : trace) :
  get_latest_fact env n tr = (tr, (get_latest_fact env n tr).2).
Proof.
  rewrite <- (get_latest_fact_trace env n tr) at 2.
  destruct (get_latest_fact env n tr); reflexivity.
Qed.

Lemma get_start_end_trace (env : Env) (since until : option datetime)
    (delta : option timedelta) (tr : trace) :
  (get_start_end env since until delta tr).1 = tr.
Proof.
  unfold get_start_end. rewrite bind_run, get_prev_end_time_run, get_latest_fact_run.
  destruct (get_latest_fact env 2 tr).2 as [[prev|]|e]; try reflexivity.
  destruct (end_time prev) as [pe|]; simpl; [|reflexivity].
  destruct since, until, (delta_given delta); reflexivity.
Qed.

(** The interval phase prints, asks and writes nothing. *)
Lemma log_activity_interval_trace (env : Env) (args : Args) (tr : trace) :
  (log_activity_interval env args tr).1 = tr.
Proof.
  unfold log_activity_interval.
  destruct (hamster_storage env); [|reflexivity].
  destruct (_ && _); [reflexivity|].
  rewrite bind_run.
  assert (Hsu : forall (m : M (option string * option string)),
            m = (if Str.given (between args)
                 then if Str.given (arg_since args) || Str.given (arg_until args)
                         || Str.given (arg_duration args)
                      then raise (AssertionError (Message
                        "--since, --until and --duration must not be used with --between"))
                      else pair ← lift (unpack2 (Str.split "-"
                                          (default EmptyString (between args))));
                           mret (Some pair.1, Some pair.2)
                 else mret (arg_since args, arg_until args)) ->
            (m tr).1 = tr).
  { intros m ->. destruct (Str.given (between args)); [|reflexivity].
    destruct (_ || _); [reflexivity|].
    rewrite bind_run, lift_run. destruct (unpack2 _); reflexivity. }
  match goal with |- (match ?m tr with _ => _ end).1 = _ =>
    specialize (Hsu m eq_refl); destruct (m tr) as [tr0 [su|e]] end;
    simpl in Hsu; subst tr0; [|reflexivity].
  rewrite bind_run, lift_run.
  destruct (parse_time_to_datetime _ _ su.1 _ _) as [since|e]; [|reflexivity].
  rewrite bind_run, lift_run.
  destruct (parse_time_to_datetime _ _ su.2 _ _) as [until|e]; [|reflexivity].
  rewrite bind_run, lift_run.
  destruct (parse_delta _ _) as [delta|e]; [|reflexivity].
  rewrite bind_run, get_latest_fact_run.
  destruct (get_latest_fact env 2 tr).2 as [prev|e]; [|reflexivity].
  rewrite bind_run.
  match goal with |- (match ?m tr with _ => _ end).1 = _ =>
    assert (Hm : (m tr).1 = tr);
    [destruct (amend args); [destruct prev|]; reflexivity|];
    destruct (m tr) as [tr0 [su'|e]] end;
    simpl in Hm; subst tr0; [|reflexivity].
  rewrite bind_run.
  pose proof (get_start_end_trace env su'.1 su'.2 delta tr) as Hse.
  destruct (get_start_end env su'.1 su'.2 delta tr) as [tr0 [se|e]];
    simpl in Hse; subst tr0; [|reflexivity].
  repeat match goal with |- context [if ?b then _ else _] => destruct b end;
    reflexivity.
Qed.

Lemma log_activity_run (env : Env) (args : Args) (tr : trace) :
  log_activity env args tr =
  match (log_activity_interval env args tr).2 with
  | Ok r =>
      match log_activity_reconcile env args r.1.1 r.1.2 r.2 tr with
      | (tr', Ok true) => log_activity_apply env args r.1.2 r.2 tr'
      | (tr', Ok false) => (tr', Ok tt)
      | (tr', Raise e) => (tr', Raise e)
      end
  | Raise e => (tr, Raise e)
  end.
Proof.
  unfold log_activity. rewrite bind_run.
  pose proof (log_activity_interval_trace env args tr) as Htr.
  destruct (log_activity_interval env args tr) as [tr0 [r|e]]; simpl in Htr; subst tr0;
    [|reflexivity].
  simpl. rewrite bind_run.
  destruct (log_activity_reconcile env args r.1.1 r.1.2 r.2 tr) as [tr' [[|]|e]];
    reflexivity.
Qed.

Lemma log_activity_reconcile_run (env : Env) (hs : Storage) (args : Args)
    (prev : option Fact) (start end_ : datetime) (tr : trace) :
  hamster_storage env = Some hs ->
  log_activity_reconcile env args prev start end_ tr =
  match overlap env args prev start end_ (todays_facts env hs tr) with
  | [] => (tr, Ok true)
  | [p] =>
      if start <=? start_time p then (tr ++ [overlap_line p; would_replace], Ok false)
      else
        match end_time p with
        | None => (tr ++ [overlap_line p], Raise TypeError)
        | Some prev_end =>
            let action := truncation_prompt env args p prev_end start end_ in
            if confirm env action
            then (tr ++ [overlap_line p; Confirm action true], Ok true)
            else (tr ++ [overlap_line p; Confirm action false; cancelled], Ok false)
        end
  | _ => (tr ++ [too_many], Ok false)
  end.
Proof.
  intros Hhs. unfold log_activity_reconcile.
  rewrite bind_run, get_facts_for_day_run, Hhs.
  change (get_facts hs tr _ None EmptyString) with (todays_facts env hs tr).
  destruct (overlap env args prev start end_ (todays_facts env hs tr)) as [|p [|q rest]].
  - reflexivity.
  - rewrite bind_run. unfold emit at 1. cbn [Str.join].
    destruct (start <=? start_time p).
    + rewrite bind_run. unfold emit, overlap_line, would_replace.
      rewrite <- app_assoc. reflexivity.
    + unfold overlap_line. destruct (end_time p) as [pe|]; [|reflexivity].
      cbv zeta. rewrite bind_run. unfold emit at 1.
      destruct (confirm env _).
      * rewrite <- app_assoc. reflexivity.
      * rewrite bind_run. unfold emit, cancelled. rewrite <- !app_assoc. reflexivity.
  - rewrite bind_run. reflexivity.
Qed.

Lemma writes_app (tr1 tr2 : trace) : writes (tr1 ++ tr2) = writes tr1 ++ writes tr2.
Proof. unfold writes. apply List.filter_app. Qed.

(** C6, as the code has it.  When more than one fact of the day overlaps
    the interval, not counting (when amending) the facts rendered like the
    latest one, the command prints "FAIL: too many overlapping facts" and
    stops: nothing is asked and nothing is written. *)
Theorem log_activity_rejects_several_overlaps (env : Env) (hs : Storage) (args : Args)
    (tr : trace) (prev : option Fact) (start end_ : datetime) :
  (log_activity_interval env args tr).2 = Ok (prev, start, end_) ->
  hamster_storage env = Some hs ->
  (1 < length (overlap env args prev start end_ (todays_facts env hs tr)))%nat ->
  log_activity env args tr = (tr ++ [too_many], Ok tt) /\
  writes (log_activity env args tr).1 = writes tr.
Proof.
  intros Hint Hhs Hlen.
  assert (Hrun : log_activity env args tr = (tr ++ [too_many], Ok tt)).
  { rewrite log_activity_run, Hint. cbn [fst snd].
    rewrite (log_activity_reconcile_run env hs) by exact Hhs.
    destruct (overlap env args prev start end_ (todays_facts env hs tr)) as [|p [|q rest]];
      simpl in Hlen; try lia. reflexivity. }
  split; [exact Hrun|].
  rewrite Hrun. cbn [fst]. rewrite writes_app. simpl. apply app_nil_r.
Qed.

Lemma log_activity_rejects_several_overlaps_witness :
  log_activity Sample.env Sample.log_across [] = ([] ++ [too_many], Ok tt) /\
  writes (log_activity Sample.env Sample.log_across []).1 = writes [].
Proof.
  apply (log_activity_rejects_several_overlaps Sample.env
           (Sample.hamster_with [Sample.reading; Sample.coding]) Sample.log_across []
           (Some Sample.coding) (Sample.at_ 100 11 0) (Sample.at_ 100 12 15)).
  - vm_compute. reflexivity.
  - reflexivity.
  - vm_compute. lia.
Defined.

(** C6 as stated fails when amending: for [--amend --since 10:00] both
    facts of the day overlap the interval from 10:00 to 12:30, but the
    latest one is the fact being amended and is not counted; the command
    asks about the other one and rewrites the latest fact. *)
Lemma log_activity_amend_with_two_overlaps :
  List.filter (fun f => overlaps f (Sample.at_ 100 10 0) (Sample.at_ 100 12 30))
              [Sample.reading; Sample.coding]
  = [Sample.reading; Sample.coding] /\
  log_activity Sample.env Sample.amend_since_10 []
  = ([overlap_line Sample.reading;
      Confirm (mk_prompt "reading" "2:30" "0:30" "2:30" None) true;
      Yield (ChangedLine "start_time" (VDatetime (Sample.at_ 100 12 0))
                         (VDatetime (Sample.at_ 100 10 0)) (Some (false, timedelta_hm 2 0)));
      Yield (ChangedLine "tags" (VList []) (VList ["timetra-log"%string]) None);
      UpdateFact (Some 2)
        (mk_fact (Some 2) "coding" (Some "work"%string) None ["timetra-log"%string]
                 (Sample.at_ 100 10 0) (Some (Sample.at_ 100 12 30)) (Some false));
      Yield (NowLine (Sample.at_ 100 10 0) "coding" (timedelta_hm 2 30) "]  ... +3:30")],
     Ok tt) /\
  ~ In too_many (log_activity Sample.env Sample.amend_since_10 []).1.
Proof.
  split; [|split]; try (vm_compute; reflexivity).
  intros H. vm_compute in H. repeat (destruct H as [H|H]; [discriminate H|]). exact H.
Qed.

(** ** Recording the interval *)

Lemma fold_setattr_keeps (kwargs : list kwarg) (f : Fact) :
  Forall (fun kw => sets_times kw = false) kwargs ->
  id (fold_left setattr kwargs f) = id f /\
  start_time (fold_left setattr kwargs f) = start_time f /\
  end_time (fold_left setattr kwargs f) = end_time f.
Proof.
  intros H. revert f. induction H as [|kw kws Hkw _ IH]; intros f; simpl.
  - auto.
  - destruct (IH (setattr f kw)) as (-> & -> & ->).
    destruct kw; simpl in *; try discriminate; auto.
Qed.

Lemma fold_setattr_id (kwargs : list kwarg) (f : Fact) :
  id (fold_left setattr kwargs f) = id f.
Proof.
  revert f. induction kwargs as [|kw kws IH]; intros f; simpl; [reflexivity|].
  rewrite IH. destruct kw; reflexivity.
Qed.

Lemma get_hamster_activity_trace (env : Env) (name : string) (tr : trace) :
  (get_hamster_activity env name tr).1 = tr.
Proof.
  unfold get_hamster_activity, storage_handle.
  destruct (hamster_storage env) as [hs|]; [|reflexivity].
  rewrite bind_run. cbn [mret M_ret]. rewrite bind_run. unfold history.
  repeat match goal with |- context [match ?l with [] => _ | _ :: _ => _ end] =>
    destruct l end; reflexivity.
Qed.

Lemma parse_activity_trace (env : Env) (mask : option string) (tr : trace) :
  (Storage.parse_activity env mask tr).1 = tr.
Proof.
  unfold Storage.parse_activity.
  destruct (Str.given mask); [|reflexivity].
  destruct (Str.contains_char _ _); [reflexivity|].
  pose proof (get_hamster_activity_trace env (default EmptyString mask) tr) as H.
  destruct (get_hamster_activity env (default EmptyString mask) tr) as [tr' [r|e]];
    simpl in H; subst tr'; [reflexivity|].
  destruct e; reflexivity.
Qed.

Lemma amend_kwargs_run (env : Env) (args : Args) (tags : list string)
    (start end_ : datetime) (tr : trace) :
  exists r,
    amend_kwargs env args tags start end_ tr = (tr, r) /\
    forall kwargs, r = Ok kwargs ->
      exists rest,
        kwargs = KwStartTime start :: KwEndTime (Some end_) :: rest /\
        Forall (fun kw => sets_times kw = false) rest.
Proof.
  unfold amend_kwargs. rewrite bind_run.
  destruct (Str.given (arg_activity args)).
  - unfold parse_activity. rewrite bind_run.
    pose proof (parse_activity_trace env (arg_activity args) tr) as H.
    destruct (Storage.parse_activity env (arg_activity args) tr) as [tr' [parsed|e]];
      simpl in H; subst tr'.
    + rewrite bind_run, lift_run. destruct (unpack2 parsed) as [ac|e].
      * eexists. split; [reflexivity|]. intros kwargs [= <-].
        destruct (Str.given (arg_description args)), tags;
          (eexists; split; [reflexivity|repeat constructor]).
      * eexists. split; [reflexivity|]. intros kwargs [=].
    + eexists. split; [reflexivity|]. intros kwargs [=].
  - eexists. split; [reflexivity|]. intros kwargs [= <-].
    destruct (Str.given (arg_description args)), tags;
      (eexists; split; [reflexivity|repeat constructor]).
Qed.

Lemma yield_all_run (ls : list line) (tr : trace) :
  yield_all ls tr = (tr ++ (Yield <$> ls), Ok tt).
Proof.
  revert tr. induction ls as [|l ls IH]; intros tr; simpl.
  - rewrite app_nil_r. reflexivity.
  - rewrite bind_run. unfold emit at 1. rewrite IH, <- app_assoc. reflexivity.
Qed.

Lemma writes_yields (ls : list line) : writes (Yield <$> ls) = [].
Proof. induction ls; simpl; auto. Qed.

Lemma Forall_yields (start end_ : datetime) (ls : list line) :
  Forall (records_interval start end_) (Yield <$> ls).
Proof. induction ls; simpl; constructor; simpl; auto. Qed.

Lemma now_trace (env : Env) (tr : trace) :
  exists ls, (now env tr).1 = tr ++ (Yield <$> ls).
Proof.
  unfold now. rewrite bind_run, get_latest_fact_run.
  destruct (get_latest_fact env 2 tr).2 as [[fact|]|e].
  - rewrite bind_run. unfold emit at 1.
    destruct (Str.given (description fact)).
    + rewrite bind_run. unfold emit. cbn [fst].
      eexists [_; _; _]. rewrite <- !app_assoc. reflexivity.
    + eexists [_]. reflexivity.
  - eexists [_]. reflexivity.
  - exists []. simpl. rewrite app_nil_r. reflexivity.
Qed.

Lemma log_activity_report_trace (env : Env) (args : Args) (tr : trace) :
  exists ls, (log_activity_report env args tr).1 = tr ++ (Yield <$> ls).
Proof.
  unfold log_activity_report. rewrite bind_run.
  destruct (now_trace env tr) as [ls Hls].
  destruct (now env tr) as [tr' [[]|e]]; simpl in Hls; subst tr'.
  - destruct (arg_dry_run args).
    + exists (ls ++ [Text Warning "(Dry run, nothing changed.)"]).
      unfold emit. cbn [fst]. rewrite fmap_app, app_assoc. reflexivity.
    + exists ls. reflexivity.
  - exists ls. reflexivity.
Qed.

Lemma update_fact_run (env : Env) (hs : Storage) (fact : Fact)
    (kwargs : list kwarg) (tr : trace) :
  hamster_storage env = Some hs ->
  update_fact env fact None None kwargs tr =
  (tr ++ [UpdateFact (id fact) (fold_left setattr kwargs fact)],
   Ok (fold_left setattr kwargs fact)).
Proof.
  intros Hhs. unfold update_fact, storage_handle, updated. rewrite Hhs.
  cbn [Str.given]. rewrite bind_run. cbn [mret M_ret]. rewrite bind_run.
  unfold emit. rewrite fold_setattr_id. reflexivity.
Qed.

Lemma add_fact_trace (env : Env) (hs : Storage) (name : option string)
    (start end_ : datetime) (description : option string) (tags : list string)
    (dry : bool) (tr : trace) :
  hamster_storage env = Some hs ->
  (add_fact env name start end_ description tags dry tr).1 = tr \/
  exists f, (add_fact env name start end_ description tags dry tr).1 = tr ++ [AddFact f] /\
            id f = None /\ start_time f = start /\ end_time f = Some end_.
Proof.
  intros Hhs. unfold add_fact. rewrite bind_run.
  pose proof (parse_activity_trace env name tr) as H.
  destruct (Storage.parse_activity env name tr) as [tr' [parsed|e]];
    simpl in H; subst tr'; [|left; reflexivity].
  rewrite bind_run, lift_run.
  destruct (unpack2 parsed) as [ac|e]; [|left; reflexivity].
  destruct dry; [left; reflexivity|].
  right. unfold storage_handle. rewrite Hhs, bind_run. cbn [mret M_ret].
  rewrite bind_run. unfold emit. eexists. split; [reflexivity|]. auto.
Qed.

(** The recording phase yields lines and makes at most one write, the one
    that stores the interval. *)
Lemma log_activity_record_trace (env : Env) (hs : Storage) (args : Args)
    (start end_ : datetime) (tr : trace) :
  hamster_storage env = Some hs ->
  exists tail,
    (log_activity_record env args start end_ tr).1 = tr ++ tail /\
    Forall (records_interval start end_) tail /\
    (length (writes tail) <= 1)%nat.
Proof.
  intros Hhs. unfold log_activity_record. destruct (amend args).
  - rewrite bind_run, get_latest_fact_run.
    destruct (get_latest_fact env 2 tr).2 as [fact|e];
      [|exists []; rewrite app_nil_r; repeat split; [constructor|simpl; lia]].
    rewrite bind_run.
    destruct (amend_kwargs_run env args (log_tags args) start end_ tr)
      as (r & Hrun & Hshape).
    rewrite Hrun.
    destruct r as [kwargs|e];
      [|exists []; rewrite app_nil_r; repeat split; [constructor|simpl; lia]].
    destruct (Hshape kwargs eq_refl) as (rest & -> & Hrest).
    rewrite bind_run, yield_all_run.
    match goal with |- context [Yield <$> ?c] => set (changed := c) end.
    assert (Hnothing : exists tail,
              ((_ ← emit (Yield (Text Failure "Nothing changed.")); mret false)
                 (tr ++ (Yield <$> changed))).1 = tr ++ tail /\
              Forall (records_interval start end_) tail /\
              (length (writes tail) <= 1)%nat).
    { exists ((Yield <$> changed) ++ [Yield (Text Failure "Nothing changed.")]).
      rewrite bind_run. unfold emit. cbn [fst]. rewrite app_assoc.
      split; [reflexivity|]. split.
      - apply Forall_app. split; [apply Forall_yields|repeat constructor].
      - rewrite writes_app, writes_yields. simpl. lia. }
    destruct changed as [|c cs] eqn:Hc; [exact Hnothing|].
    destruct fact as [fact|]; [|exact Hnothing].
    rewrite bind_run, (update_fact_run env hs) by exact Hhs.
    eexists ((Yield <$> c :: cs) ++ [UpdateFact _ _]).
    cbn [fst]. rewrite app_assoc. split; [reflexivity|]. split.
    + apply Forall_app. split; [apply Forall_yields|].
      constructor; [|constructor]. cbn [records_interval fold_left].
      destruct (fold_setattr_keeps rest
                  (setattr (setattr fact (KwStartTime start)) (KwEndTime (Some end_))) Hrest)
        as (Hid & Hst & Hen).
      rewrite Hid, Hst, Hen. auto.
    + rewrite writes_app, writes_yields. simpl. lia.
  - rewrite bind_run.
    destruct (add_fact_trace env hs (arg_activity args) start end_ (arg_description args)
                (log_tags args) (arg_dry_run args) tr Hhs) as [H|(f & H & Hf)].
    + exists []. rewrite app_nil_r.
      destruct (add_fact _ _ _ _ _ _ _ tr) as [tr' [x|e]]; simpl in H; subst tr';
        repeat split; try constructor; simpl; lia.
    + exists [AddFact f].
      destruct (add_fact _ _ _ _ _ _ _ tr) as [tr' [x|e]]; simpl in H; subst tr';
        repeat split; try (repeat constructor; tauto); simpl; lia.
Qed.

Lemma log_activity_apply_trace (env : Env) (hs : Storage) (args : Args)
    (start end_ : datetime) (tr : trace) :
  hamster_storage env = Some hs ->
  exists tail,
    (log_activity_apply env args start end_ tr).1 = tr ++ tail /\
    Forall (records_interval start end_) tail /\
    (length (writes tail) <= 1)%nat.
Proof.
  intros Hhs. unfold log_activity_apply. rewrite bind_run.
  destruct (log_activity_record_trace env hs args start end_ tr Hhs)
    as (tail & Htail & Hall & Hlen).
  destruct (log_activity_record env args start end_ tr) as [tr' [[|]|e]];
    simpl in Htail; subst tr';
    [|exists tail; repeat split; assumption|exists tail; repeat split; assumption].
  destruct (log_activity_report_trace env args (tr ++ tail)) as [ls Hls].
  exists (tail ++ (Yield <$> ls)). rewrite Hls, app_assoc.
  split; [reflexivity|]. split.
  - apply Forall_app. split; [exact Hall|apply Forall_yields].
  - rewrite writes_app, writes_yields, app_nil_r. exact Hlen.
Qed.

(** *** The recording phase, case by case *)
















(** ** The bound expression extractor *)

Section Filtering.

Context {A B : Type}.

Lemma filter_fmap_ext (q : B -> bool) (q' : A -> bool) (f f' : A -> B) (l : list A) :
  (forall x, x ∈ l -> q (f x) = q' x) ->
  (forall x, x ∈ l -> q' x = true -> f x = f' x) ->
  List.filter q (f <$> l) = f' <$> List.filter q' l.
Proof.
  induction l as [|x l IH]; intros Hq Hf; [reflexivity|].
  cbn [fmap list_fmap List.filter].
  rewrite (Hq x) by left.
  rewrite IH;
    [|intros y Hy; apply Hq; right; exact Hy
     |intros y Hy Hqy; apply Hf; [right; exact Hy|exact Hqy]].
  destruct (q' x) eqn:Hx; [|reflexivity].
  cbn [fmap list_fmap]. rewrite (Hf x); [reflexivity|left|exact Hx].
Qed.

Lemma filter_bind_ext (q : B -> bool) (q' : A -> bool) (k k' : A -> list B) (l : list A) :
  (forall x, x ∈ l -> q' x = true -> List.filter q (k x) = k' x) ->
  (forall x, x ∈ l -> q' x = false -> List.filter q (k x) = []) ->
  List.filter q (l ≫= k) = List.filter q' l ≫= k'.
Proof.
  induction l as [|x l IH]; intros Hyes Hno; [reflexivity|].
  rewrite bind_cons, List.filter_app.
  rewrite IH;
    [|intros y Hy Hqy; apply Hyes; [right; exact Hy|exact Hqy]
     |intros y Hy Hqy; apply Hno; [right; exact Hy|exact Hqy]].
  cbn [List.filter]. destruct (q' x) eqn:Hx.
  - rewrite bind_cons, (Hyes x); [reflexivity|left|exact Hx].
  - rewrite (Hno x); [reflexivity|left|exact Hx].
Qed.

Lemma filter_all (q : A -> bool) (l : list A) :
  (forall x, x ∈ l -> q x = true) -> List.filter q l = l.
Proof.
  induction l as [|x l IH]; intros H; [reflexivity|].
  cbn [List.filter]. rewrite (H x) by left. rewrite IH; [reflexivity|].
  intros y Hy. apply H. right. exact Hy.
Qed.

Lemma filter_none (q : A -> bool) (l : list A) :
  (forall x, x ∈ l -> q x = false) -> List.filter q l = [].
Proof.
  induction l as [|x l IH]; intros H; [reflexivity|].
  cbn [List.filter]. rewrite (H x) by left. apply IH.
  intros y Hy. apply H. right. exact Hy.
Qed.

End Filtering.

(** *** Greedy repetition *)

Lemma rep_parses_unfold (p : ascii -> bool) (lo : nat) (hi : option nat) (s : list ascii) :
  rep_parses p lo hi s =
  match s with
  | c :: s' =>
      if p c && negb (bool_decide (hi = Some 0%nat))
      then S <$> rep_parses p (pred lo) (pred <$> hi) s'
      else []
  | [] => []
  end ++ (if bool_decide (lo = 0%nat) then [0%nat] else []).
Proof. destruct s; reflexivity. Qed.

Lemma rep_parses_sound (p : ascii -> bool) (s : list ascii) :
  forall lo hi j,
    j ∈ rep_parses p lo hi s ->
    (j <= length s)%nat /\ Forall (fun c => p c = true) (take j s) /\
    (lo <= j)%nat /\ (forall h, hi = Some h -> (j <= h)%nat).
Proof.
  induction s as [|c s IH]; intros lo hi j; rewrite rep_parses_unfold, elem_of_app.
  - intros [H|H]; [inversion H|].
    case_bool_decide; [|inversion H].
    apply list_elem_of_singleton in H. subst. simpl. repeat split; auto with lia.
  - intros [H|H].
    + destruct (p c) eqn:Hc; [|inversion H].
      case_bool_decide as Hhi; simpl in H; [inversion H|].
      apply list_elem_of_fmap in H. destruct H as (j' & -> & Hj').
      destruct (IH _ _ _ Hj') as (Hlen & Hall & Hlo & Hh).
      simpl. repeat split; [lia|constructor; assumption|lia|].
      intros h ->. destruct h as [|h]; [congruence|].
      specialize (Hh h eq_refl). lia.
    + case_bool_decide; [|inversion H].
      apply list_elem_of_singleton in H. subst. simpl. repeat split; auto with lia.
Qed.

Lemma rep_parses_complete (p : ascii -> bool) (u rest : list ascii) :
  forall lo hi,
    Forall (fun c => p c = true) u ->
    (lo <= length u)%nat ->
    (forall h, hi = Some h -> (length u <= h)%nat) ->
    length u ∈ rep_parses p lo hi (u ++ rest).
Proof.
  induction u as [|c u IH]; intros lo hi Hall Hlo Hhi;
    rewrite rep_parses_unfold, elem_of_app.
  - right. simpl in Hlo. rewrite bool_decide_true by lia. left.
  - left. inversion Hall as [|? ? Hc Hu]; subst. cbn [app length]. rewrite Hc.
    rewrite bool_decide_false.
    + simpl. apply list_elem_of_fmap_2. apply IH; [exact Hu|simpl in Hlo; lia|].
      intros h Hh. destruct hi as [[|n]|]; simpl in Hh; try congruence.
      * specialize (Hhi 0%nat eq_refl). simpl in Hhi. lia.
      * injection Hh as <-. specialize (Hhi (S n) eq_refl). simpl in Hhi. lia.
    + intros Hz. specialize (Hhi 0%nat Hz). simpl in Hhi. lia.
Qed.

(** Cutting the input after [u] keeps exactly the repetitions that end
    within [u], in the same order. *)
Lemma rep_parses_cut (p : ascii -> bool) (u rest : list ascii) :
  forall lo hi,
    rep_parses p lo hi u =
    List.filter (fun j => (j <=? length u)%nat) (rep_parses p lo hi (u ++ rest)).
Proof.
  induction u as [|c u IH]; intros lo hi.
  - rewrite (rep_parses_unfold p lo hi ([] ++ rest)), List.filter_app.
    rewrite filter_none.
    + simpl. case_bool_decide; reflexivity.
    + intros j Hj. destruct rest as [|c rest]; [inversion Hj|]. simpl in Hj.
      destruct (_ && _); [|inversion Hj].
      apply list_elem_of_fmap in Hj. destruct Hj as (j' & -> & _). reflexivity.
  - rewrite rep_parses_unfold, (rep_parses_unfold p lo hi ((c :: u) ++ rest)).
    rewrite List.filter_app. cbn [app]. f_equal.
    + destruct (_ && _); [|reflexivity].
      rewrite (filter_fmap_ext _ (fun j => (j <=? length u)%nat) S S);
        [rewrite <- IH; reflexivity|reflexivity|reflexivity].
    + case_bool_decide; reflexivity.
Qed.

(** *** The matcher against the language *)

Lemma parses_sound (r : regex) :
  forall s g x, x ∈ parses r s g -> (x.1 <= length s)%nat /\ matches r (take x.1 s).
Proof.
  induction r as [p|p lo hi|a IHa b IHb|a IHa b IHb|name a IHa]; intros s g x Hx;
    cbn [parses] in Hx.
  - destruct s as [|c s]; [inversion Hx|].
    destruct (p c) eqn:Hc; [|inversion Hx].
    apply list_elem_of_singleton in Hx. subst x. simpl.
    split; [lia|]. rewrite take_0. constructor. exact Hc.
  - apply list_elem_of_fmap in Hx. destruct Hx as (j & -> & Hj).
    destruct (rep_parses_sound p s lo hi j Hj) as (Hlen & Hall & Hlo & Hhi).
    split; [exact Hlen|]. constructor; [exact Hall| |].
    + rewrite length_take. simpl. lia.
    + intros h Hh. rewrite length_take. specialize (Hhi h Hh). simpl. lia.
  - apply list_elem_of_bind in Hx. destruct Hx as (xa & Hx & Hxa).
    apply list_elem_of_bind in Hx. destruct Hx as (xb & Hx & Hxb).
    apply list_elem_of_singleton in Hx. subst x. cbn [fst].
    destruct (IHa _ _ _ Hxa) as (Hla & Hma).
    destruct (IHb _ _ _ Hxb) as (Hlb & Hmb).
    rewrite length_drop in Hlb. split; [lia|].
    rewrite <- take_take_drop. constructor; assumption.
  - apply elem_of_app in Hx. destruct Hx as [Hx|Hx].
    + destruct (IHa _ _ _ Hx). split; [assumption|]. apply matches_alt_l. assumption.
    + destruct (IHb _ _ _ Hx). split; [assumption|]. apply matches_alt_r. assumption.
  - apply list_elem_of_fmap in Hx. destruct Hx as (xa & -> & Hxa). cbn [fst].
    destruct (IHa _ _ _ Hxa). split; [assumption|]. constructor. assumption.
Qed.

Lemma parses_complete (r : regex) (u : list ascii) :
  matches r u -> forall rest g, exists g', (length u, g') ∈ parses r (u ++ rest) g.
Proof.
  induction 1 as [p c Hc|p lo hi s Hall Hlo Hhi|a b s1 s2 _ IH1 _ IH2
                 |a b s _ IH|a b s _ IH|name a s _ IH]; intros rest g; cbn [parses].
  - exists g. simpl. rewrite Hc. left.
  - exists g. apply (list_elem_of_fmap_2 (fun j => (j, g))).
    apply rep_parses_complete; assumption.
  - destruct (IH1 (s2 ++ rest) g) as (g1 & H1).
    destruct (IH2 rest g1) as (g2 & H2).
    exists g2. rewrite <- app_assoc.
    apply list_elem_of_bind. exists (length s1, g1). split; [|exact H1].
    cbn [fst snd]. rewrite drop_app_length.
    apply list_elem_of_bind. exists (length s2, g2). split; [|exact H2].
    cbn [fst snd]. rewrite length_app. left.
  - destruct (IH rest g) as (g' & H'). exists g'. apply elem_of_app. left. exact H'.
  - destruct (IH rest g) as (g' & H'). exists g'. apply elem_of_app. right. exact H'.
  - destruct (IH rest g) as (g' & H'). eexists.
    apply list_elem_of_fmap. exists (length s, g'). split; [reflexivity|exact H'].
Qed.

(** Cutting the input after [u] keeps exactly the matches that end within
    [u], in the same order and with the same groups. *)
Lemma parses_cut (r : regex) :
  forall u rest g,
    parses r u g =
    List.filter (fun x => (x.1 <=? length u)%nat) (parses r (u ++ rest) g).
Proof.
  induction r as [p|p lo hi|a IHa b IHb|a IHa b IHb|name a IHa]; intros u rest g;
    cbn [parses].
  - destruct u as [|c u]; simpl.
    + destruct rest as [|c rest]; [reflexivity|]. destruct (p c); reflexivity.
    + destruct (p c); reflexivity.
  - rewrite (rep_parses_cut p u rest lo hi). symmetry.
    apply filter_fmap_ext; reflexivity.
  - rewrite (IHa u rest g). symmetry. apply filter_bind_ext.
    + intros x Hx Hle. apply Nat.leb_le in Hle.
      rewrite drop_app_le by exact Hle.
      rewrite (IHb (drop x.1 u) rest x.2). apply filter_bind_ext.
      * intros y _ Hy. cbn [List.filter fst]. rewrite length_drop in Hy.
        apply Nat.leb_le in Hy.
        replace (x.1 + y.1 <=? length u)%nat with true; [reflexivity|].
        symmetry. apply Nat.leb_le. lia.
      * intros y _ Hy. cbn [List.filter fst]. rewrite length_drop in Hy.
        apply Nat.leb_gt in Hy.
        replace (x.1 + y.1 <=? length u)%nat with false; [reflexivity|].
        symmetry. apply Nat.leb_gt. lia.
    + intros x _ Hgt. apply Nat.leb_gt in Hgt. apply filter_none.
      intros z Hz. apply list_elem_of_bind in Hz. destruct Hz as (y & Hz & _).
      apply list_elem_of_singleton in Hz. subst z. cbn [fst].
      apply Nat.leb_gt. lia.
  - rewrite List.filter_app, <- IHa, <- IHb. reflexivity.
  - rewrite (IHa u rest g). symmetry. apply filter_fmap_ext.
    + reflexivity.
    + intros x _ Hle. apply Nat.leb_le in Hle. rewrite take_app_le by exact Hle.
      reflexivity.
Qed.

(** *** [re_match] and [extract_date_time_bounds] *)

Lemma list_ascii_of_string_app (a b : string) :
  list_ascii_of_string (a ++ b)%string = list_ascii_of_string a ++ list_ascii_of_string b.
Proof. induction a as [|c a IH]; simpl; [reflexivity|]. rewrite IH. reflexivity. Qed.

Lemma string_split_at (j : nat) (spec : string) :
  spec = (string_of_list_ascii (take j (list_ascii_of_string spec))
          ++ string_of_list_ascii (drop j (list_ascii_of_string spec)))%string.
Proof.
  rewrite <- (string_of_list_ascii_of_string spec) at 1.
  rewrite <- (take_drop j (list_ascii_of_string spec)) at 1.
  generalize (take j (list_ascii_of_string spec)) (drop j (list_ascii_of_string spec)).
  intros l1 l2. induction l1 as [|c l1 IH]; simpl; [reflexivity|]. rewrite IH. reflexivity.
Qed.

Lemma re_match_none (r : regex) (spec : string) :
  re_match r spec = None <->
  forall p extra, spec = (p ++ extra)%string -> ~ matches r (list_ascii_of_string p).
Proof.
  unfold re_match. rewrite head_None. split.
  - intros Hnil p extra -> Hm. rewrite list_ascii_of_string_app in Hnil.
    destruct (parses_complete r _ Hm (list_ascii_of_string extra) (no_groups r)) as (g & Hg).
    rewrite Hnil in Hg. inversion Hg.
  - intros Hno. apply elem_of_nil_inv. intros x Hx.
    destruct (parses_sound r _ _ _ Hx) as (_ & Hm).
    apply (Hno _ _ (string_split_at x.1 spec)).
    rewrite list_ascii_of_string_of_list_ascii. exact Hm.
Qed.

Lemma re_match_cut_none (r : regex) (m extra : string) :
  re_match r (m ++ extra)%string = None -> re_match r m = None.
Proof.
  unfold re_match. rewrite !head_None, list_ascii_of_string_app. intros H.
  rewrite (parses_cut r _ (list_ascii_of_string extra)), H. reflexivity.
Qed.

Lemma re_match_cut (r : regex) (spec : string) (x : nat * groupdict) :
  re_match r spec = Some x ->
  matches r (take x.1 (list_ascii_of_string spec)) /\
  re_match r (string_of_list_ascii (take x.1 (list_ascii_of_string spec))) = Some x.
Proof.
  unfold re_match. intros H. apply head_Some in H. destruct H as (l & Hl).
  assert (Hx : x ∈ parses r (list_ascii_of_string spec) (no_groups r))
    by (rewrite Hl; left).
  destruct (parses_sound r _ _ _ Hx) as (Hle & Hm). split; [exact Hm|].
  rewrite list_ascii_of_string_of_list_ascii.
  rewrite (parses_cut r (take x.1 (list_ascii_of_string spec))
             (drop x.1 (list_ascii_of_string spec))), take_drop, Hl.
  cbn [List.filter]. rewrite length_take.
  replace (x.1 <=? x.1 `min` length (list_ascii_of_string spec))%nat with true;
    [reflexivity|].
  symmetry. apply Nat.leb_le. lia.
Qed.

Lemma matches_accepts (r : regex) (w : list ascii) :
  matches r w -> Forall (fun c => accepts r c = true) w.
Proof.
  induction 1 as [p c Hc|p lo hi s Hall _ _|a b s1 s2 _ IH1 _ IH2
                 |a b s _ IH|a b s _ IH|name a s _ IH]; cbn [accepts].
  - repeat constructor. exact Hc.
  - exact Hall.
  - apply Forall_app. split; (eapply Forall_impl; [eassumption|]);
      intros c Hc; cbn beta in Hc; rewrite Hc; auto using orb_true_r.
  - eapply Forall_impl; [eassumption|]. intros c Hc. cbn beta in Hc. rewrite Hc. reflexivity.
  - eapply Forall_impl; [eassumption|]. intros c Hc. cbn beta in Hc. rewrite Hc.
    apply orb_true_r.
  - exact IH.
Qed.

(** Text that starts with a character the pattern cannot consume changes
    nothing. *)
Lemma parses_ignore (r : regex) (u : list ascii) (c : ascii) (rest : list ascii)
    (g : groupdict) :
  accepts r c = false -> parses r (u ++ c :: rest) g = parses r u g.
Proof.
  intros Hc. rewrite (parses_cut r u (c :: rest) g). symmetry. apply filter_all.
  intros x Hx. apply Nat.leb_le.
  destruct (parses_sound r _ _ _ Hx) as (_ & Hm).
  apply matches_accepts in Hm.
  destruct (le_lt_dec x.1 (length u)) as [Hle|Hgt]; [exact Hle|exfalso].
  rewrite List.Forall_forall in Hm.
  assert (Hin : In c (take x.1 (u ++ c :: rest))).
  { apply list_elem_of_In. apply list_elem_of_lookup. exists (length u).
    rewrite lookup_take_lt by lia. apply list_lookup_middle. reflexivity. }
  specialize (Hm c Hin). congruence.
Qed.

Lemma re_match_ignore (r : regex) (p extra : string) :
  (forall c rest, extra = String c rest -> accepts r c = false) ->
  re_match r (p ++ extra)%string = re_match r p.
Proof.
  intros Hc. unfold re_match. rewrite list_ascii_of_string_app.
  destruct extra as [|c rest]; simpl.
  - rewrite app_nil_r. reflexivity.
  - rewrite parses_ignore; [reflexivity|]. eapply Hc. reflexivity.
Qed.

Lemma rxs_accepts (rx : regex) (c : ascii) :
  In rx rxs -> bound_char c = false -> accepts rx c = false.
Proof.
  unfold bound_char, is_sign. intros Hin Hc.
  apply orb_false_iff in Hc. destruct Hc as [Hc Hsign].
  apply orb_false_iff in Hc. destruct Hc as [Hc Hdot].
  apply orb_false_iff in Hc. destruct Hc as [Hdigit Hcolon].
  apply orb_false_iff in Hsign. destruct Hsign as [Hplus Hminus].
  simpl in Hin. destruct Hin as [<-|[<-|[<-|[]]]]; cbn [accepts rx_component rx_time rx_rel rx_separator];
    unfold is_sign; rewrite ?Hdigit, ?Hcolon, ?Hdot, ?Hplus, ?Hminus; reflexivity.
Qed.

Lemma first_match_raise (rs : list regex) (spec : string) (e : pyerr) :
  first_match rs spec = Raise e ->
  e = could_not_parse spec /\ forall rx, In rx rs -> re_match rx spec = None.
Proof.
  induction rs as [|rx rs IH]; simpl.
  - intros [= <-]. split; [reflexivity|]. intros rx [].
  - destruct (re_match rx spec) as [m|] eqn:Hm; [discriminate|].
    intros H. destruct (IH H) as (He & Hall). split; [exact He|].
    intros rx' [<-|Hin]; [exact Hm|apply Hall, Hin].
Qed.

Lemma first_match_ok (rs : list regex) (spec : string) (g : groupdict) :
  first_match rs spec = Ok g ->
  exists m extra,
    spec = (m ++ extra)%string /\
    (exists rx, In rx rs /\ matches rx (list_ascii_of_string m)) /\
    first_match rs m = Ok g.
Proof.
  induction rs as [|rx rs IH]; simpl; [discriminate|].
  destruct (re_match rx spec) as [x|] eqn:Hx.
  - intros [= <-]. destruct (re_match_cut rx spec x Hx) as (Hm & Hcut).
    eexists _, _. split; [apply (string_split_at x.1 spec)|]. split.
    + exists rx. split; [left; reflexivity|].
      rewrite list_ascii_of_string_of_list_ascii. exact Hm.
    + rewrite Hcut. reflexivity.
  - intros H. destruct (IH H) as (m & extra & -> & (rx' & Hin & Hm) & Hfirst).
    exists m, extra. split; [reflexivity|]. split.
    + exists rx'. split; [right; exact Hin|exact Hm].
    + rewrite (re_match_cut_none rx m extra Hx). exact Hfirst.
Qed.

Lemma first_match_ignore (rs : list regex) (p extra : string) (g : groupdict) :
  (forall rx c rest, In rx rs -> extra = String c rest -> accepts rx c = false) ->
  first_match rs (p ++ extra)%string = Ok g <-> first_match rs p = Ok g.
Proof.
  induction rs as [|rx rs IH]; intros Hc; simpl.
  - split; discriminate.
  - rewrite (re_match_ignore rx p extra)
      by (intros c rest; apply Hc; left; reflexivity).
    destruct (re_match rx p); [reflexivity|].
    apply IH. intros rx' c rest Hin. apply Hc. right. exact Hin.
Qed.

(** C10. [extract_date_time_bounds] fails, with the ValueError that names
    the input, only when no prefix of the input has one of the three shapes;
    an input that starts with a string of one of the shapes is accepted
    whatever follows; the bounds of an accepted input are those of a
    prefix of it that has one of the shapes, taken alone: the text after it
    plays no part.  In particular text that starts with a character other
    than a digit, [:], [.], [+] or [-] never changes the bounds, and
    [14:00..15:30tail] yields the bounds of [14:00..15:30]. *)
Theorem extract_date_time_bounds_ignores_extra_text :
  (forall spec e,
     extract_date_time_bounds spec = Raise e ->
     e = could_not_parse spec /\
     forall p extra, spec = (p ++ extra)%string -> ~ shape p) /\
  (forall p extra,
     shape p -> exists g, extract_date_time_bounds (p ++ extra)%string = Ok g) /\
  (forall spec g,
     extract_date_time_bounds spec = Ok g ->
     exists m extra,
       spec = (m ++ extra)%string /\ shape m /\ extract_date_time_bounds m = Ok g) /\
  (forall p extra g,
     (forall c rest, extra = String c rest -> bound_char c = false) ->
     extract_date_time_bounds (p ++ extra)%string = Ok g <->
     extract_date_time_bounds p = Ok g) /\
  extract_date_time_bounds "14:00..15:30tail" = extract_date_time_bounds "14:00..15:30" /\
  parse_date_time_bounds "14:00..15:30tail"
  = Ok (Some "14:00"%string, Some "15:30"%string).
Proof.
  unfold extract_date_time_bounds.
  assert (Hfail : forall spec e,
            first_match rxs spec = Raise e ->
            e = could_not_parse spec /\
            forall p extra, spec = (p ++ extra)%string -> ~ shape p).
  { intros spec e H. destruct (first_match_raise _ _ _ H) as (He & Hall).
    split; [exact He|]. intros p extra Hspec (rx & Hin & Hm).
    apply (proj1 (re_match_none rx spec) (Hall rx Hin) p extra Hspec Hm). }
  split; [exact Hfail|]. split; [|split; [|split; [|split]]].
  - intros p extra Hshape.
    destruct (first_match rxs (p ++ extra)) as [g|e] eqn:H; [exists g; reflexivity|].
    exfalso. apply (proj2 (Hfail _ _ H) p extra eq_refl Hshape).
  - intros spec g H. apply first_match_ok. exact H.
  - intros p extra g Hextra. apply first_match_ignore.
    intros rx c rest Hin Hc. apply rxs_accepts; [exact Hin|]. eapply Hextra, Hc.
  - vm_compute. reflexivity.
  - vm_compute. reflexivity.
Qed.

Lemma extract_date_time_bounds_ignores_extra_text_witness :
  exists g, extract_date_time_bounds ("1230+5" ++ " and more")%string = Ok g.
Proof.
  apply (proj1 (proj2 extract_date_time_bounds_ignores_extra_text)).
  exists (nth 1 rxs (Chr is_digit)). split; [right; left; reflexivity|].
  change (list_ascii_of_string "1230+5")
    with (list_ascii_of_string "1230" ++ list_ascii_of_string "+5").
  apply (matches_seq (Group "since" rx_time)).
  - apply matches_group. unfold rx_time.
    change (list_ascii_of_string "1230")
      with (list_ascii_of_string "12" ++ ([] ++ list_ascii_of_string "30")).
    apply matches_seq; [|apply matches_seq];
      (apply matches_repeat; [repeat constructor|simpl; lia|intros h [= <-]; simpl; lia]).
  - apply matches_group.
    change (list_ascii_of_string "+5")
      with (list_ascii_of_string "+" ++ list_ascii_of_string "5").
    apply matches_seq; [constructor; reflexivity|].
    apply matches_repeat; [repeat constructor|simpl; lia|intros h [=]].
Defined.

(** ** Further properties *)



(** X2. [storage.update_fact] calls Hamster's [update_fact] whatever its
    keyword arguments are, [dry_run] included. *)
Theorem update_fact_always_writes (env : Env) (hs : Storage) (fact : Fact)
    (extra_tags : option (list string)) (extra_description : option string)
    (kwargs : list kwarg) (tr : trace) :
  hamster_storage env = Some hs ->
  writes (update_fact env fact extra_tags extra_description kwargs tr).1
  = writes tr ++
    [UpdateFact (id (updated env fact extra_tags extra_description kwargs))
                (updated env fact extra_tags extra_description kwargs)].
Proof.
  intros Hhs. unfold update_fact, storage_handle. rewrite Hhs. cbv zeta.
  rewrite bind_run. cbn [mret M_ret]. rewrite bind_run. unfold emit.
  cbn [mret M_ret fst]. rewrite writes_app. reflexivity.
Qed.

Lemma update_fact_always_writes_witness :
  writes (update_fact Sample.env Sample.coding None None [KwDryRun true] []).1
  = writes [] ++
    [UpdateFact (id (updated Sample.env Sample.coding None None [KwDryRun true]))
                (updated Sample.env Sample.coding None None [KwDryRun true])].
Proof.
  apply (update_fact_always_writes Sample.env
           (Sample.hamster_with [Sample.reading; Sample.coding])).
  reflexivity.
Defined.

(** X3. When the single overlapping fact is open and starts before the
    interval, the command stops with a TypeError at
    [prev_fact.end_time - start]: nothing is asked, nothing is written. *)
Theorem log_activity_open_overlap_raises (env : Env) (hs : Storage) (args : Args)
    (tr : trace) (prev : option Fact) (start end_ : datetime) (p : Fact) :
  (log_activity_interval env args tr).2 = Ok (prev, start, end_) ->
  hamster_storage env = Some hs ->
  overlap env args prev start end_ (todays_facts env hs tr) = [p] ->
  end_time p = None ->
  start_time p < start ->
  log_activity env args tr = (tr ++ [overlap_line p], Raise TypeError).
Proof.
  intros Hint Hhs Hov Hopen Hlt.
  rewrite log_activity_run, Hint. cbn [fst snd].
  rewrite (log_activity_reconcile_run env hs) by exact Hhs.
  rewrite Hov, Hopen.
  replace (start <=? start_time p) with false by (symmetry; apply Z.leb_gt; exact Hlt).
  reflexivity.
Qed.

Lemma log_activity_open_overlap_raises_witness :
  log_activity (Sample.env_with [Sample.nap; Sample.walk]) Sample.log_afternoon []
  = ([] ++ [overlap_line Sample.nap], Raise TypeError).
Proof.
  apply (log_activity_open_overlap_raises (Sample.env_with [Sample.nap; Sample.walk])
           (Sample.hamster_with [Sample.nap; Sample.walk]) Sample.log_afternoon []
           (Some Sample.walk) (Sample.at_ 100 14 0) (Sample.at_ 100 15 30) Sample.nap).
  - vm_compute. reflexivity.
  - reflexivity.
  - vm_compute. reflexivity.
  - reflexivity.
  - vm_compute. reflexivity.
Defined.

(** *** Times of day and durations in [utils.py] *)

Lemma dt_time_valid (d : datetime) : valid_time (dt_time d).
Proof.
  unfold valid_time, dt_time, us_per_day, us_per_hour, us_per_minute, us_per_second.
  cbn [hour minute second microsecond].
  repeat split; Z.div_mod_to_equations; lia.
Qed.

Lemma time_hm_valid (h m : Z) (t : time) :
  time_hm h m = Ok t -> t = mk_time h m 0 0 /\ valid_time t.
Proof.
  unfold time_hm, valid_time.
  destruct (Z.leb_spec 0 h), (Z.ltb_spec h 24); cbn [andb negb]; try discriminate.
  destruct (Z.leb_spec 0 m), (Z.ltb_spec m 60); cbn [andb negb]; try discriminate.
  intros [= <-]. cbn. repeat split; lia.
Qed.

Lemma prefix_now_no_dash (s : string) :
  String.prefix "now-" s = true -> String.prefix "-" s = false.
Proof.
  destruct s as [|c s]; [discriminate|].
  change (String.prefix "now-" (String c s))
    with (if ascii_dec "n" c then String.prefix "ow-" s else false).
  destruct (ascii_dec "n" c) as [<-|Hc]; [reflexivity|intros H; discriminate H].
Qed.

Lemma parse_time_valid_time (py_int : string -> result Z) (clock : datetime) (s : string)
    (t : time) (sub : bool) :
  parse_time py_int clock s = Ok (t, sub) -> valid_time t.
Proof.
  unfold parse_time.
  destruct (String.eqb s "now"); [intros [= <- _]; apply dt_time_valid|].
  destruct (String.prefix "now-" s).
  - destruct (unpack2 _) as [parts|e]; [|discriminate]. cbn [mbind result_bind].
    destruct (parse_time_plain _ _ _) as [delta|e]; [|discriminate].
    cbn [mbind result_bind]. intros [= <- _]. apply dt_time_valid.
  - destruct (_ ≫= unpack2) as [hm|e]; [|discriminate]. cbn [mbind result_bind].
    destruct (time_hm hm.1 hm.2) as [t'|e] eqn:Ht; [|discriminate].
    cbn [mbind result_bind]. intros [= <- _]. apply (time_hm_valid _ _ _ Ht).
Qed.

(** X4. [parse_time_to_datetime], asked for a past time, puts the parsed
    clock time on the day of the base date when that is not after the base
    (an equal time stays today) and on the day before otherwise: the
    result lies in the day that ends at the base. *)
Theorem parse_time_to_datetime_anchor (py_int : string -> result Z) (clock : datetime)
    (s : string) (relative_to : option datetime) (t : time) (sub : bool) :
  s <> EmptyString ->
  parse_time py_int clock s = Ok (t, sub) ->
  let base := dt_whole_second (default clock relative_to) in
  let today := dt_whole_second (dt_combine (dt_date (default clock relative_to)) t) in
  exists d,
    parse_time_to_datetime py_int clock (Some s) relative_to true = Ok (Some d) /\
    (today <= base -> d = today) /\
    (base < today -> d = today - us_per_day) /\
    base - us_per_day < d <= base.
Proof.
  intros Hs Hp base today. unfold parse_time_to_datetime.
  pose proof (parse_time_valid_time _ _ _ _ _ Hp) as Hv.
  assert (Hg : Str.given (Some s) = true) by (destruct s; [contradiction|reflexivity]).
  rewrite Hg. cbn [negb]. change (default EmptyString (Some s)) with s.
  rewrite Hp. cbn [mbind result_bind fst andb].
  fold base. fold today.
  assert (Hrange : dt_date (default clock relative_to) * us_per_day <= today
                   < dt_date (default clock relative_to) * us_per_day + us_per_day
                   /\ dt_date (default clock relative_to) * us_per_day <= base
                      < dt_date (default clock relative_to) * us_per_day + us_per_day).
  { subst base today. destruct Hv as (Hh & Hm & Hsec & Hus).
    unfold dt_whole_second, dt_combine, dt_date, us_per_day, us_per_hour,
      us_per_minute, us_per_second in *.
    split; split; Z.div_mod_to_equations; lia. }
  unfold timedelta_days.
  destruct (Z.ltb_spec base today) as [Hlt|Hge]; eexists; (split; [reflexivity|]); lia.
Qed.

Lemma parse_time_to_datetime_anchor_witness :
  exists d,
    parse_time_to_datetime Sample.decimal_int (Sample.at_ 100 16 0) (Some "16:00"%string)
                           None true = Ok (Some d) /\
    (Sample.at_ 100 16 0 <= Sample.at_ 100 16 0 -> d = Sample.at_ 100 16 0) /\
    (Sample.at_ 100 16 0 < Sample.at_ 100 16 0 -> d = Sample.at_ 100 16 0 - us_per_day) /\
    Sample.at_ 100 16 0 - us_per_day < d <= Sample.at_ 100 16 0.
Proof.
  apply (parse_time_to_datetime_anchor Sample.decimal_int (Sample.at_ 100 16 0)
           "16:00"%string None (mk_time 16 0 0 0) false).
  - discriminate.
  - vm_compute. reflexivity.
Defined.

(** X5. Whatever [parse_time] returns is a time of day the interpreter
    accepts, and the second component says exactly whether the string
    starts with a minus sign. *)
Theorem parse_time_valid (py_int : string -> result Z) (clock : datetime) (s : string)
    (t : time) (sub : bool) :
  parse_time py_int clock s = Ok (t, sub) ->
  valid_time t /\ sub = String.prefix "-" s.
Proof.
  unfold parse_time.
  destruct (String.eqb_spec s "now") as [->|Hnow].
  - intros [= <- <-]. split; [apply dt_time_valid|reflexivity].
  - destruct (String.prefix "now-" s) eqn:Hpre.
    + destruct (unpack2 _) as [parts|e]; [|discriminate]. cbn [mbind result_bind].
      destruct (parse_time_plain _ _ _) as [delta|e]; [|discriminate].
      cbn [mbind result_bind]. intros [= <- <-].
      split; [apply dt_time_valid|]. symmetry. apply prefix_now_no_dash. exact Hpre.
    + destruct (_ ≫= unpack2) as [hm|e]; [|discriminate]. cbn [mbind result_bind].
      destruct (time_hm hm.1 hm.2) as [t'|e] eqn:Ht; [|discriminate].
      cbn [mbind result_bind]. intros [= <- <-].
      split; [apply (time_hm_valid _ _ _ Ht)|reflexivity].
Qed.

Lemma parse_time_valid_witness :
  valid_time (mk_time 1 35 0 0) /\ true = String.prefix "-" "-1:35".
Proof.
  apply (parse_time_valid Sample.decimal_int (Sample.at_ 100 16 0) "-1:35").
  vm_compute. reflexivity.
Defined.

(** X6. [format_delta] shows the hours and minutes of the time of day a
    duration points at: whole days and what is left of a minute are
    dropped, so that a negative duration of five minutes reads 23:55. *)
Theorem format_delta_hours_minutes (days h m rest : Z) :
  0 <= h < 24 -> 0 <= m < 60 -> 0 <= rest < us_per_minute ->
  format_delta (timedelta_days days + timedelta_hm h m + rest)
  = (str_of_Z h ++ ":" ++ str_of_Z m)%string.
Proof.
  intros Hh Hm Hr. unfold format_delta, td_seconds.
  assert (Hs : (timedelta_days days + timedelta_hm h m + rest) mod us_per_day / us_per_second
               = h * 3600 + m * 60 + rest / us_per_second).
  { unfold timedelta_days, timedelta_hm, us_per_day, us_per_hour, us_per_minute,
      us_per_second in *.
    Z.div_mod_to_equations. lia. }
  rewrite Hs.
  assert (Hrs : 0 <= rest / us_per_second < 60).
  { unfold us_per_minute, us_per_second in *. Z.div_mod_to_equations. lia. }
  replace ((h * 3600 + m * 60 + rest / us_per_second) / 3600) with h
    by (Z.div_mod_to_equations; lia).
  replace ((h * 3600 + m * 60 + rest / us_per_second) mod 3600 / 60) with m
    by (Z.div_mod_to_equations; lia).
  reflexivity.
Qed.

Lemma format_delta_hours_minutes_witness :
  format_delta (timedelta_days (-1) + timedelta_hm 23 55 + 0)
  = (str_of_Z 23 ++ ":" ++ str_of_Z 55)%string.
Proof.
  apply (format_delta_hours_minutes (-1) 23 55 0);
    unfold us_per_minute, us_per_second; lia.
Defined.

Lemma string_of_uint_no_colon (d : Decimal.uint) :
  Str.contains_char ":" (NilEmpty.string_of_uint d) = false.
Proof. induction d; cbn; auto. Qed.

Lemma str_of_Z_no_colon (n : Z) : Str.contains_char ":" (str_of_Z n) = false.
Proof.
  unfold str_of_Z, NilZero.string_of_uint.
  destruct (N.to_uint (Z.to_N n)) eqn:E; try reflexivity;
    rewrite <- E; apply string_of_uint_no_colon.
Qed.

Lemma str_of_Z_nonempty (n : Z) : exists c s, str_of_Z n = String c s.
Proof.
  unfold str_of_Z, NilZero.string_of_uint.
  destruct (N.to_uint (Z.to_N n)); cbn; eauto.
Qed.

Lemma contains_char_app (c : ascii) (a b : string) :
  Str.contains_char c (a ++ b) = Str.contains_char c a || Str.contains_char c b.
Proof.
  induction a as [|d a IH]; simpl; [reflexivity|].
  rewrite IH. apply orb_assoc.
Qed.

Lemma split_none (c : ascii) (s : string) :
  Str.contains_char c s = false -> Str.split c s = [s].
Proof.
  induction s as [|d s IH]; cbn [Str.contains_char Str.split]; [reflexivity|].
  intros H. apply orb_false_iff in H. destruct H as [Hd Hs].
  rewrite Hd, (IH Hs). reflexivity.
Qed.

Lemma split_at_sep (c : ascii) (a b : string) :
  Str.contains_char c a = false ->
  Str.split c (a ++ String c b) = a :: Str.split c b.
Proof.
  induction a as [|d a IH]; simpl.
  - intros _. rewrite Ascii.eqb_refl. reflexivity.
  - intros H. apply orb_false_iff in H. destruct H as [Hd Ha].
    rewrite Hd, (IH Ha). reflexivity.
Qed.

(** X7. Reading back what [format_delta] wrote: [parse_delta] returns the
    duration without its whole days and without what is left of a minute,
    given that [int] reads a decimal numeral as the number it denotes. *)
Theorem parse_delta_format_delta (py_int : string -> result Z) (delta : timedelta) :
  py_int (str_of_Z (td_seconds delta / 3600)) = Ok (td_seconds delta / 3600) ->
  py_int (str_of_Z (td_seconds delta mod 3600 / 60)) = Ok (td_seconds delta mod 3600 / 60) ->
  parse_delta py_int (Some (format_delta delta))
  = Ok (Some (delta mod us_per_day - delta mod us_per_minute)).
Proof.
  intros Hh Hm. unfold parse_delta, format_delta. cbv zeta.
  set (h := td_seconds delta / 3600) in *.
  set (m := td_seconds delta mod 3600 / 60) in *.
  destruct (str_of_Z_nonempty h) as (ch & sh & Hsh).
  destruct (str_of_Z_nonempty m) as (cm & sm & Hsm).
  assert (Hg : Str.given (Some (str_of_Z h ++ ":" ++ str_of_Z m)%string) = true)
    by (rewrite Hsh; reflexivity).
  rewrite Hg. cbn [negb]. change (default EmptyString (Some ?s)) with s.
  unfold split_time, split_parts.
  assert (Hc : Str.contains_char ":" (str_of_Z h ++ ":" ++ str_of_Z m) = true).
  { rewrite contains_char_app. cbn. apply orb_true_r. }
  rewrite Hc.
  change (str_of_Z h ++ ":" ++ str_of_Z m)%string
    with (str_of_Z h ++ String ":" (str_of_Z m))%string.
  rewrite split_at_sep by apply str_of_Z_no_colon.
  rewrite split_none by apply str_of_Z_no_colon.
  cbn [ints]. unfold int_or_0. rewrite Hsh, Hsm, <- Hsh, <- Hsm, Hh, Hm.
  cbn [mbind result_bind unpack2 fst snd]. do 2 f_equal.
  subst h m. unfold timedelta_hm, td_seconds, us_per_day, us_per_hour, us_per_minute,
    us_per_second.
  Z.div_mod_to_equations. lia.
Qed.

Lemma parse_delta_format_delta_witness :
  parse_delta Sample.decimal_int (Some (format_delta (- (5 * us_per_minute) - 1)))
  = Ok (Some ((- (5 * us_per_minute) - 1) mod us_per_day
              - (- (5 * us_per_minute) - 1) mod us_per_minute)).
Proof.
  apply (parse_delta_format_delta Sample.decimal_int (- (5 * us_per_minute) - 1));
    vm_compute; reflexivity.
Defined.

(** *** More of [normalize_group] *)

(** X8. A bound that is absent or counts as false (a zero duration,
    midnight where the interpreter takes it for false) is replaced by its
    anchor: the interval then starts at [last], or ends at [now]. *)
Theorem normalize_group_defaults (midnight_is_false : bool) (last : option datetime)
    (since until : bound) (now : option datetime) (r : datetime * datetime) :
  normalize_group midnight_is_false last since until now = Ok r ->
  (truthy midnight_is_false since = false -> last = Some r.1) /\
  (truthy midnight_is_false until = false -> now = Some r.2).
Proof.
  unfold normalize_group.
  destruct (truthy midnight_is_false since) eqn:Hs, (truthy midnight_is_false until) eqn:Hu;
    cbn [orb negb].
  - intros _. split; discriminate.
  - destruct now as [n|]; [|discriminate].
    rewrite bool_decide_true by eauto. cbn [negb bound_of_anchor].
    destruct (resolve_since _ _ _) as [s|e]; [|discriminate]. cbn [mbind result_bind resolve_until].
    destruct (_ <? _); [|discriminate]. intros [= <-]. split; [discriminate|reflexivity].
  - destruct last as [l|]; [|discriminate].
    rewrite bool_decide_true by eauto. cbn [negb bound_of_anchor resolve_since].
    cbn [mbind result_bind].
    destruct (resolve_until _ _ _) as [u|e]; [|discriminate]. cbn [mbind result_bind].
    destruct (_ <? _); [|discriminate]. intros [= <-]. split; [reflexivity|discriminate].
  - destruct last as [l|]; [|discriminate].
    rewrite bool_decide_true by eauto. cbn [negb].
    destruct now as [n|]; [|discriminate].
    rewrite bool_decide_true by eauto. cbn [negb bound_of_anchor resolve_since].
    cbn [mbind result_bind resolve_until].
    destruct (_ <? _); [|discriminate]. intros [= <-]. split; reflexivity.
Qed.

Lemma normalize_group_defaults_witness :
  (truthy true (BDelta 0) = false -> Some (Sample.at_ 100 9 0) = Some (Sample.at_ 100 9 0)) /\
  (truthy true (BTime (mk_time 0 0 0 0)) = false
   -> Some (Sample.at_ 100 11 30) = Some (Sample.at_ 100 11 30)).
Proof.
  apply (normalize_group_defaults true (Some (Sample.at_ 100 9 0)) (BDelta 0)
           (BTime (mk_time 0 0 0 0)) (Some (Sample.at_ 100 11 30))
           (Sample.at_ 100 9 0, Sample.at_ 100 11 30)).
  reflexivity.
Defined.

(** X9. Durations as bounds.  A positive duration as [until] is the length
    of the interval; a negative one counts back from [now]; a negative
    duration as [since] counts back from [until], whatever that is. *)
Theorem normalize_group_durations (midnight_is_false : bool) (last : option datetime)
    (since until : bound) (now : option datetime) (r : datetime * datetime)
    (td : timedelta) :
  normalize_group midnight_is_false last since until now = Ok r ->
  (until = BDelta td -> 0 < td -> r.2 = r.1 + td) /\
  (until = BDelta td -> td < 0 -> now = Some (r.2 - td)) /\
  (since = BDelta td -> td < 0 -> r.1 = r.2 + td).
Proof.
  unfold normalize_group.
  destruct (negb _); [discriminate|]. destruct (negb _); [discriminate|].
  intros H. split; [|split].
  - intros -> Htd. revert H.
    assert (Ht : truthy midnight_is_false (BDelta td) = true)
      by (cbn; apply negb_true_iff, Z.eqb_neq; lia).
    rewrite Ht.
    destruct (resolve_since _ _ _) as [s|e]; [|discriminate].
    cbn [mbind result_bind resolve_until]. unfold td_negative.
    replace (td <? 0) with false by (symmetry; apply Z.ltb_ge; lia).
    destruct s as [s|v]; [|discriminate]. cbn [mbind result_bind].
    destruct (_ <? _); [|discriminate]. intros [= <-]. reflexivity.
  - intros -> Htd. revert H.
    assert (Ht : truthy midnight_is_false (BDelta td) = true)
      by (cbn; apply negb_true_iff, Z.eqb_neq; lia).
    rewrite Ht.
    destruct (resolve_since _ _ _) as [s|e]; [|discriminate].
    cbn [mbind result_bind resolve_until]. unfold td_negative.
    replace (td <? 0) with true by (symmetry; apply Z.ltb_lt; lia).
    destruct now as [n|]; [|discriminate]. cbn [mbind result_bind].
    destruct (_ <? _); [|discriminate]. intros [= <-]. cbn [snd]. f_equal. lia.
  - intros -> Htd. revert H.
    assert (Ht : truthy midnight_is_false (BDelta td) = true)
      by (cbn; apply negb_true_iff, Z.eqb_neq; lia).
    rewrite Ht. cbn [resolve_since]. unfold td_negative.
    replace (td <? 0) with true by (symmetry; apply Z.ltb_lt; lia).
    cbn [mbind result_bind].
    destruct (resolve_until _ _ _) as [u|e]; [|discriminate]. cbn [mbind result_bind].
    destruct (_ <? _); [|discriminate]. intros [= <-]. reflexivity.
Qed.

Lemma normalize_group_durations_witness :
  (BDatetime (Sample.at_ 100 11 30) = BDelta (- (30 * us_per_minute))
   -> 0 < - (30 * us_per_minute)
   -> (Sample.at_ 100 11 0, Sample.at_ 100 11 30).2
      = (Sample.at_ 100 11 0, Sample.at_ 100 11 30).1 + - (30 * us_per_minute)) /\
  (BDatetime (Sample.at_ 100 11 30) = BDelta (- (30 * us_per_minute))
   -> - (30 * us_per_minute) < 0
   -> Some (Sample.at_ 100 12 0)
      = Some ((Sample.at_ 100 11 0, Sample.at_ 100 11 30).2 - - (30 * us_per_minute))) /\
  (BDelta (- (30 * us_per_minute)) = BDelta (- (30 * us_per_minute))
   -> - (30 * us_per_minute) < 0
   -> (Sample.at_ 100 11 0, Sample.at_ 100 11 30).1
      = (Sample.at_ 100 11 0, Sample.at_ 100 11 30).2 + - (30 * us_per_minute)).
Proof.
  apply (normalize_group_durations false None (BDelta (- (30 * us_per_minute)))
           (BDatetime (Sample.at_ 100 11 30)) (Some (Sample.at_ 100 12 0))
           (Sample.at_ 100 11 0, Sample.at_ 100 11 30) (- (30 * us_per_minute))).
  vm_compute. reflexivity.
Defined.

(** X10. A negative duration as [since] waits for [until]; a positive
    duration as [until] is added to [since].  Given both ([-30..+10]), the
    addition meets the waiting object and the function stops with a
    TypeError, whatever [last] and [now] are. *)
Theorem normalize_group_two_durations (midnight_is_false : bool) (last now : option datetime)
    (a b : timedelta) :
  a < 0 -> 0 < b ->
  normalize_group midnight_is_false last (BDelta a) (BDelta b) now = Raise TypeError.
Proof.
  intros Ha Hb. unfold normalize_group.
  assert (Hta : truthy midnight_is_false (BDelta a) = true)
    by (cbn; apply negb_true_iff, Z.eqb_neq; lia).
  assert (Htb : truthy midnight_is_false (BDelta b) = true)
    by (cbn; apply negb_true_iff, Z.eqb_neq; lia).
  rewrite Hta, Htb. cbn [orb negb resolve_since]. unfold td_negative.
  replace (a <? 0) with true by (symmetry; apply Z.ltb_lt; lia).
  cbn [mbind result_bind resolve_until]. unfold td_negative.
  replace (b <? 0) with false by (symmetry; apply Z.ltb_ge; lia).
  reflexivity.
Qed.

Lemma normalize_group_two_durations_witness :
  normalize_group false (Some (Sample.at_ 100 9 0)) (BDelta (- (30 * us_per_minute)))
                  (BDelta (10 * us_per_minute)) (Some (Sample.at_ 100 12 0))
  = Raise TypeError.
Proof.
  apply (normalize_group_two_durations false (Some (Sample.at_ 100 9 0))
           (Some (Sample.at_ 100 12 0)) (- (30 * us_per_minute)) (10 * us_per_minute));
    unfold us_per_minute, us_per_second; lia.
Defined.

(** *** The groups of a match *)

(** A pattern leaves the groups it does not name as they are. *)
Lemma parses_frame (r : regex) (name : string) :
  ~ In name (group_names r) ->
  forall s g x, x ∈ parses r s g -> x.2 !! name = g !! name.
Proof.
  induction r as [p|p lo hi|a IHa b IHb|a IHa b IHb|n a IHa]; intros Hn s g x Hx;
    cbn [parses group_names] in *.
  - destruct s as [|c s]; [inversion Hx|].
    destruct (p c); [|inversion Hx].
    apply list_elem_of_singleton in Hx. subst x. reflexivity.
  - apply list_elem_of_fmap in Hx. destruct Hx as (j & -> & _). reflexivity.
  - rewrite in_app_iff in Hn.
    apply list_elem_of_bind in Hx. destruct Hx as (xa & Hx & Hxa).
    apply list_elem_of_bind in Hx. destruct Hx as (xb & Hx & Hxb).
    apply list_elem_of_singleton in Hx. subst x. cbn [snd].
    rewrite (IHb (fun H => Hn (or_intror H)) _ _ _ Hxb).
    apply (IHa (fun H => Hn (or_introl H)) _ _ _ Hxa).
  - rewrite in_app_iff in Hn. apply elem_of_app in Hx. destruct Hx as [Hx|Hx].
    + apply (IHa (fun H => Hn (or_introl H)) _ _ _ Hx).
    + apply (IHb (fun H => Hn (or_intror H)) _ _ _ Hx).
  - apply list_elem_of_fmap in Hx. destruct Hx as (xa & -> & Hxa). cbn [snd].
    rewrite lookup_insert_ne by (intros ->; apply Hn; left; reflexivity).
    apply (IHa (fun H => Hn (or_intror H)) _ _ _ Hxa).
Qed.

(** What a leading group holds after the rest of the pattern has matched. *)
Lemma parses_leading_group (name : string) (a b : regex) (s : list ascii)
    (g : groupdict) (x : nat * groupdict) :
  ~ In name (group_names a) -> ~ In name (group_names b) ->
  x ∈ parses (Seq (Group name a) b) s g ->
  exists j, (j <= length s)%nat /\ matches a (take j s) /\
            x.2 !! name = Some (Some (string_of_list_ascii (take j s))).
Proof.
  intros Ha Hb Hx. cbn [parses] in Hx.
  apply list_elem_of_bind in Hx. destruct Hx as (xa & Hx & Hxa).
  apply list_elem_of_bind in Hx. destruct Hx as (xb & Hx & Hxb).
  apply list_elem_of_singleton in Hx. subst x. cbn [snd].
  apply list_elem_of_fmap in Hxa. destruct Hxa as (xa' & -> & Hxa').
  cbn [fst snd] in Hxb.
  destruct (parses_sound a _ _ _ Hxa') as (Hle & Hm).
  exists xa'.1. split; [exact Hle|]. split; [exact Hm|].
  rewrite (parses_frame b name Hb _ _ _ Hxb).
  apply lookup_insert_eq.
Qed.

Lemma matches_rx_time_length (w : list ascii) : matches rx_time w -> (1 <= length w)%nat.
Proof.
  unfold rx_time. intros H.
  inversion H as [| |? ? s1 s2 _ H2| | |]; subst.
  inversion H2 as [| |? ? s3 s4 _ H4| | |]; subst.
  inversion H4; subst. rewrite !length_app. lia.
Qed.

Lemma matches_rx_rel_length (w : list ascii) : matches rx_rel w -> (1 <= length w)%nat.
Proof.
  unfold rx_rel. intros H.
  inversion H as [| |? ? s1 s2 H1 _| | |]; subst.
  inversion H1; subst. simpl. lia.
Qed.

Lemma matches_rx_component_length (w : list ascii) :
  matches rx_component w -> (1 <= length w)%nat.
Proof.
  unfold rx_component. intros H.
  inversion H; subst; [apply matches_rx_time_length|apply matches_rx_rel_length]; assumption.
Qed.

Lemma string_of_take_nonempty (j : nat) (l : list ascii) :
  (1 <= j <= length l)%nat -> string_of_list_ascii (take j l) <> EmptyString.
Proof.
  destruct j as [|j]; [lia|]. destruct l as [|c l]; simpl; [lia|]. discriminate.
Qed.

(** The group [since] of each of the three patterns holds a non-empty
    prefix of the input. *)
Lemma rxs_since (rx : regex) (s : list ascii) (x : nat * groupdict) :
  In rx rxs -> x ∈ parses rx s (no_groups rx) ->
  exists j, (1 <= j <= length s)%nat /\
            x.2 !! "since"%string = Some (Some (string_of_list_ascii (take j s))).
Proof.
  intros Hin Hx. simpl in Hin. destruct Hin as [<-|[<-|[<-|[]]]].
  - apply parses_leading_group in Hx;
      [|cbn; tauto|cbn; intros [H|[]]; discriminate H].
    destruct Hx as (j & Hle & Hm & Hg). exists j. split; [|exact Hg].
    apply matches_rx_component_length in Hm. rewrite length_take in Hm. lia.
  - apply parses_leading_group in Hx;
      [|cbn; tauto|cbn; intros [H|[]]; discriminate H].
    destruct Hx as (j & Hle & Hm & Hg). exists j. split; [|exact Hg].
    apply matches_rx_time_length in Hm. rewrite length_take in Hm. lia.
  - cbn [parses] in Hx.
    apply list_elem_of_fmap in Hx. destruct Hx as (xa & -> & Hxa). cbn [fst snd].
    destruct (parses_sound rx_rel _ _ _ Hxa) as (Hle & Hm).
    exists xa.1. split; [|apply lookup_insert_eq].
    apply matches_rx_rel_length in Hm. rewrite length_take in Hm. lia.
Qed.

Lemma first_match_since (rs : list regex) (spec : string) (g : groupdict) :
  (forall rx, In rx rs -> In rx rxs) ->
  first_match rs spec = Ok g ->
  exists j, (1 <= j <= length (list_ascii_of_string spec))%nat /\
            g !! "since"%string
            = Some (Some (string_of_list_ascii (take j (list_ascii_of_string spec)))).
Proof.
  induction rs as [|rx rs IH]; intros Hsub; simpl; [discriminate|].
  destruct (re_match rx spec) as [x|] eqn:Hx.
  - intros [= <-]. unfold re_match in Hx. apply head_Some in Hx. destruct Hx as (l & Hl).
    apply (rxs_since rx); [apply Hsub; left; reflexivity|]. rewrite Hl. left.
  - apply IH. intros rx' Hin. apply Hsub. right. exact Hin.
Qed.

(** X11. The bounds [parse_date_time_bounds] returns always have a [since],
    a piece of text that is not empty and with which the input starts:
    the function's own assertion never fails, and its only error is the
    ValueError of the extractor. *)
Theorem parse_date_time_bounds_since (spec : string) :
  match parse_date_time_bounds spec with
  | Ok (since, until) =>
      exists s rest, since = Some s /\ s <> EmptyString /\ spec = (s ++ rest)%string
  | Raise e => e = could_not_parse spec
  end.
Proof.
  unfold parse_date_time_bounds, extract_date_time_bounds.
  destruct (first_match rxs spec) as [g|e] eqn:Hg; cbn [mbind result_bind].
  - destruct (first_match_since rxs spec g (fun _ H => H) Hg) as (j & Hj & Hsince).
    unfold dict_get. rewrite Hsince. cbn [mjoin option_join].
    pose proof (string_of_take_nonempty j _ Hj) as Hne.
    rewrite bool_decide_true by (split; [discriminate|congruence]).
    cbn [orb negb].
    eexists _, _. split; [reflexivity|]. split; [exact Hne|].
    apply (string_split_at j spec).
  - apply (first_match_raise _ _ _ Hg).
Qed.

(** *** Looking up activities and the previous fact in [storage.py] *)

Lemma get_hamster_activity_run (env : Env) (hs : Storage) (name : string) (tr : trace) :
  hamster_storage env = Some hs ->
  get_hamster_activity env name tr =
  (tr,
   let activities := get_activities hs tr in
   let exact := List.filter (fun d => String.eqb name d.1) activities in
   let candidates :=
     match exact with
     | [] => List.filter (fun d => Str.contains name d.1) activities
     | _ => exact
     end in
   match candidates with
   | [] => Raise (AssertionError (Message ("unknown activity " ++ name)))
   | [d] => Ok [Some d.1; Some d.2]
   | _ => Raise (AssertionError (Ambiguous candidates))
   end).
Proof.
  intros Hhs. unfold get_hamster_activity, storage_handle. rewrite Hhs.
  rewrite bind_run. cbn [mret M_ret]. rewrite bind_run. unfold history. cbv zeta.
  repeat match goal with |- context [match ?l with [] => _ | _ :: _ => _ end] =>
    destruct l end; reflexivity.
Qed.

Lemma filter_unique {A} (p : A -> bool) (l : list A) (d : A) :
  List.NoDup l -> In d l -> p d = true ->
  (forall d', In d' l -> p d' = true -> d' = d) ->
  List.filter p l = [d].
Proof.
  induction 1 as [|x l Hx Hnd IH]; intros Hin Hp Huniq; [destruct Hin|].
  cbn [List.filter]. destruct Hin as [->|Hin].
  - rewrite Hp. f_equal. apply filter_none. intros y Hy.
    apply list_elem_of_In in Hy.
    destruct (p y) eqn:Hpy; [|reflexivity].
    exfalso. apply Hx. rewrite <- (Huniq y (or_intror Hy) Hpy). exact Hy.
  - destruct (p x) eqn:Hpx.
    + exfalso. apply Hx. rewrite (Huniq x (or_introl eq_refl) Hpx). exact Hin.
    + apply IH; [exact Hin|exact Hp|].
      intros d' Hd'. apply Huniq. right. exact Hd'.
Qed.

Lemma prefix_refl (s : string) : String.prefix s s = true.
Proof.
  induction s as [|a s IH]; [reflexivity|].
  change (String.prefix (String a s) (String a s))
    with (if ascii_dec a a then String.prefix s s else false).
  destruct (ascii_dec a a); [exact IH|congruence].
Qed.

Lemma contains_refl (s : string) : Str.contains s s = true.
Proof. destruct s; unfold Str.contains; fold Str.contains; rewrite prefix_refl; reflexivity. Qed.

(** X12. [get_hamster_activity] prefers an exact match: when the list of
    activities has no repetition and exactly one activity is called [name],
    this one is returned, however many other names contain [name]. *)
Theorem get_hamster_activity_prefers_exact (env : Env) (hs : Storage) (name cat : string)
    (tr : trace) :
  hamster_storage env = Some hs ->
  List.NoDup (get_activities hs tr) ->
  In (name, cat) (get_activities hs tr) ->
  (forall c, In (name, c) (get_activities hs tr) -> c = cat) ->
  get_hamster_activity env name tr = (tr, Ok [Some name; Some cat]).
Proof.
  intros Hhs Hnd Hin Huniq. rewrite (get_hamster_activity_run env hs) by exact Hhs.
  cbv zeta.
  rewrite (filter_unique (fun d => String.eqb name d.1) _ (name, cat) Hnd Hin).
  - reflexivity.
  - apply String.eqb_refl.
  - intros [n c] Hd Hn. cbn [fst] in Hn. apply String.eqb_eq in Hn. subst n.
    f_equal. apply Huniq. exact Hd.
Qed.

Lemma get_hamster_activity_prefers_exact_witness :
  get_hamster_activity
    (mk_env Sample.decimal_int (Sample.at_ 100 16 0)
            (Some (mk_storage (fun _ _ _ _ => [])
                              (fun _ => [("code review", "work"); ("code", "work");
                                         ("decode", "leisure")]%string)))
            (fun _ => true) activity)
    "code" []
  = ([], Ok [Some "code"%string; Some "work"%string]).
Proof.
  apply (get_hamster_activity_prefers_exact _
           (mk_storage (fun _ _ _ _ => [])
                       (fun _ => [("code review", "work"); ("code", "work");
                                  ("decode", "leisure")]%string))).
  - reflexivity.
  - cbn. repeat constructor; cbn; intros H;
      repeat (destruct H as [H|H]; [discriminate H|]); exact H.
  - cbn. right. left. reflexivity.
  - cbn. intros c H.
    repeat (destruct H as [H|H]; [try discriminate H; injection H as <-; reflexivity|]).
    destruct H.
Defined.

(** X13. Whatever [get_hamster_activity] returns is one of Hamster's
    activities, as the pair of its name and its category, and its name
    contains the mask: callers can always unpack the result in two. *)
Theorem get_hamster_activity_sound (env : Env) (hs : Storage) (name : string)
    (tr tr' : trace) (r : list (option string)) :
  hamster_storage env = Some hs ->
  get_hamster_activity env name tr = (tr', Ok r) ->
  tr' = tr /\
  exists d, In d (get_activities hs tr) /\ r = [Some d.1; Some d.2] /\
            Str.contains name d.1 = true.
Proof.
  intros Hhs. rewrite (get_hamster_activity_run env hs) by exact Hhs. cbv zeta.
  destruct (List.filter (fun d => String.eqb name d.1) (get_activities hs tr))
    as [|d [|d' exact]] eqn:He.
  - destruct (List.filter (fun d => Str.contains name d.1) (get_activities hs tr))
      as [|d [|d' partial]] eqn:Hp; intros [= <- <-].
    split; [reflexivity|]. exists d.
    assert (Hd : In d (List.filter (fun d => Str.contains name d.1) (get_activities hs tr)))
      by (rewrite Hp; left; reflexivity).
    apply List.filter_In in Hd. destruct Hd as (Hin & Hc). auto.
  - intros [= <- <-]. split; [reflexivity|]. exists d.
    assert (Hd : In d (List.filter (fun d => String.eqb name d.1) (get_activities hs tr)))
      by (rewrite He; left; reflexivity).
    apply List.filter_In in Hd. destruct Hd as (Hin & Hc).
    apply String.eqb_eq in Hc. rewrite <- Hc. split; [exact Hin|]. split; [reflexivity|].
    apply contains_refl.
  - intros [= <- <-].
Qed.

Lemma get_hamster_activity_sound_witness :
  [] = ([] : trace) /\
  exists d, In d (get_activities (Sample.hamster_with []) []) /\
            [Some "reading"%string; Some "leisure"%string] = [Some d.1; Some d.2] /\
            Str.contains "read" d.1 = true.
Proof.
  apply (get_hamster_activity_sound (Sample.env_with []) (Sample.hamster_with []) "read" [] []).
  - reflexivity.
  - vm_compute. reflexivity.
Defined.

(** X14. [parse_activity] prints nothing and writes nothing, and a failed
    assertion of the lookup never leaves it as an [AssertionError]: for a
    mask without [@] the result is that of [get_hamster_activity], except
    that a failed assertion comes out as the [CommandError] made of it.  So
    a mask that no activity name contains gives [CommandError] of "unknown
    activity", and a name that several activities bear gives [CommandError]
    of the list of them. *)
Theorem parse_activity_no_assertion (env : Env) (mask : option string) (tr : trace) :
  (Storage.parse_activity env mask tr).1 = tr /\
  (forall a, (Storage.parse_activity env mask tr).2 <> Raise (AssertionError a)) /\
  (forall m,
     mask = Some m -> m <> EmptyString -> Str.contains_char "@" m = false ->
     (Storage.parse_activity env mask tr).2
     = match (get_hamster_activity env m tr).2 with
       | Raise (AssertionError a) => Raise (CommandErrorOf a)
       | r => r
       end) /\
  (forall hs m,
     mask = Some m -> m <> EmptyString -> Str.contains_char "@" m = false ->
     hamster_storage env = Some hs ->
     (forall d, In d (get_activities hs tr) -> Str.contains m d.1 = false) ->
     Storage.parse_activity env mask tr
     = (tr, Raise (CommandErrorOf (Message ("unknown activity " ++ m))))) /\
  (forall hs m d1 d2 rest,
     mask = Some m -> m <> EmptyString -> Str.contains_char "@" m = false ->
     hamster_storage env = Some hs ->
     List.filter (fun d => String.eqb m d.1) (get_activities hs tr) = d1 :: d2 :: rest ->
     Storage.parse_activity env mask tr
     = (tr, Raise (CommandErrorOf (Ambiguous (d1 :: d2 :: rest))))).
Proof.
  assert (Hrun : forall m,
            mask = Some m -> m <> EmptyString -> Str.contains_char "@" m = false ->
            Storage.parse_activity env mask tr
            = (tr, match (get_hamster_activity env m tr).2 with
                   | Raise (AssertionError a) => Raise (CommandErrorOf a)
                   | r => r
                   end)).
  { intros m -> Hm Hat. unfold Storage.parse_activity.
    assert (Hg : Str.given (Some m) = true) by (destruct m; [contradiction|reflexivity]).
    rewrite Hg. change (default EmptyString (Some m)) with m. rewrite Hat.
    pose proof (get_hamster_activity_trace env m tr) as Htr.
    destruct (get_hamster_activity env m tr) as [tr' [r|e]]; cbn [fst snd] in *; subst tr';
      [reflexivity|].
    destruct e; reflexivity. }
  split; [apply parse_activity_trace|]. split; [|split; [|split]].
  - intros a. unfold Storage.parse_activity.
    destruct (Str.given mask); [|discriminate].
    destruct (Str.contains_char _ _); [discriminate|].
    destruct (get_hamster_activity env (default EmptyString mask) tr) as [tr' [r|e]];
      [discriminate|].
    destruct e; discriminate.
  - intros m Hmask Hm Hat. rewrite (Hrun m Hmask Hm Hat). reflexivity.
  - intros hs m Hmask Hm Hat Hhs Hnone. rewrite (Hrun m Hmask Hm Hat).
    rewrite (get_hamster_activity_run env hs) by exact Hhs. cbv zeta. cbn [snd].
    rewrite (filter_none (fun d => String.eqb m d.1)).
    + rewrite (filter_none (fun d => Str.contains m d.1)); [reflexivity|].
      intros d Hd. apply Hnone, list_elem_of_In, Hd.
    + intros d Hd. destruct (String.eqb_spec m d.1) as [He|]; [|reflexivity].
      apply list_elem_of_In in Hd. specialize (Hnone d Hd).
      rewrite <- He, contains_refl in Hnone. discriminate Hnone.
  - intros hs m d1 d2 rest Hmask Hm Hat Hhs Hexact. rewrite (Hrun m Hmask Hm Hat).
    rewrite (get_hamster_activity_run env hs) by exact Hhs. cbv zeta. cbn [snd].
    rewrite Hexact. reflexivity.
Qed.

Lemma parse_activity_no_assertion_witness :
  Storage.parse_activity Sample.env (Some "walking"%string) []
  = ([], Raise (CommandErrorOf (Message ("unknown activity " ++ "walking")))).
Proof.
  apply (proj1 (proj2 (proj2 (proj2
           (parse_activity_no_assertion Sample.env (Some "walking"%string) []))))
           (Sample.hamster_with [Sample.reading; Sample.coding]) "walking"%string).
  - reflexivity.
  - discriminate.
  - reflexivity.
  - reflexivity.
  - intros d Hd. cbn in Hd. destruct Hd as [<-|[<-|[]]]; reflexivity.
Defined.

(** X15. [get_prev_end_time(require=True)] never returns [None]: when it
    returns, the latest fact is closed, the result is its end, and
    [get_current_fact] finds nothing running. *)
Theorem get_prev_end_time_required (env : Env) (tr : trace) (o : option datetime) :
  (get_prev_end_time env true tr).2 = Ok o ->
  (exists prev e, (get_latest_fact env 2 tr).2 = Ok (Some prev) /\
                  end_time prev = Some e /\ o = Some e) /\
  get_current_fact env tr = (tr, Ok None).
Proof.
  rewrite get_prev_end_time_run. unfold get_current_fact.
  rewrite bind_run, get_latest_fact_run.
  destruct (get_latest_fact env 2 tr).2 as [[prev|]|e]; cbn [snd]; try discriminate.
  cbn [andb]. destruct (end_time prev) as [e|] eqn:He.
  - rewrite !bool_decide_false by discriminate. cbn [snd]. intros [= <-].
    split; [|reflexivity]. exists prev, e. auto.
  - rewrite bool_decide_true by reflexivity. discriminate.
Qed.

Lemma get_prev_end_time_required_witness :
  (exists prev e, (get_latest_fact Sample.env 2 []).2 = Ok (Some prev) /\
                  end_time prev = Some e /\ Some (Sample.at_ 100 12 30) = Some e) /\
  get_current_fact Sample.env [] = ([], Ok None).
Proof.
  apply (get_prev_end_time_required Sample.env [] (Some (Sample.at_ 100 12 30))).
  vm_compute. reflexivity.
Defined.

(** X16. A duration given to [get_start_end] is the length of the interval
    it returns, unless both [since] and [until] are given (then it is
    ignored) or it is zero (then it counts as absent). *)
Theorem get_start_end_duration (env : Env) (since until : option datetime)
    (delta : timedelta) (tr tr' : trace) (r : datetime * datetime) :
  get_start_end env since until (Some delta) tr = (tr', Ok r) ->
  delta <> 0 ->
  since = None \/ until = None ->
  r.2 - r.1 = delta.
Proof.
  unfold get_start_end. rewrite bind_run, get_prev_end_time_run, get_latest_fact_run.
  destruct (get_latest_fact env 2 tr).2 as [[prev|]|e]; try discriminate.
  cbn [andb]. destruct (end_time prev) as [pe|].
  - rewrite bool_decide_false by discriminate.
    intros H Hd Hsu. unfold delta_given in H.
    replace (delta =? 0) with false in H by (symmetry; apply Z.eqb_neq; exact Hd).
    destruct since as [s|], until as [u|]; destruct Hsu as [Hsu|Hsu]; try discriminate Hsu;
      cbn [mret M_ret] in H; injection H as _ <-; cbn [fst snd]; lia.
  - rewrite bool_decide_true by reflexivity. discriminate.
Qed.

Lemma get_start_end_duration_witness :
  (Sample.at_ 100 12 30, Sample.at_ 100 13 15).2 - (Sample.at_ 100 12 30, Sample.at_ 100 13 15).1
  = 45 * us_per_minute.
Proof.
  apply (get_start_end_duration Sample.env None None (45 * us_per_minute) [] []).
  - vm_compute. reflexivity.
  - discriminate.
  - left. reflexivity.
Defined.

(** *** Post scripta *)

Lemma updated_description (env : Env) (fact : Fact)
    (extra_tags : option (list string)) (extra_description : option string)
    (kwargs : list kwarg) :
  description (updated env fact extra_tags extra_description kwargs) =
  description
    (let fact := fold_left setattr kwargs fact in
     if Str.given extra_description then
       set_description fact
         (Some (Str.strip (default EmptyString (description fact) ++ Str.newline
                           ++ Str.newline ++ "(+"
                           ++ format_delta (clock env - start_time fact) ++ ") "
                           ++ default EmptyString extra_description)%string))
     else fact).
Proof.
  unfold updated. cbv zeta.
  destruct (Str.given extra_description); destruct extra_tags as [[|t ts]|]; reflexivity.
Qed.

(** X17. The first post scriptum of a fact.  When the fact (after the
    keyword arguments are applied) has no description, the description
    [update_fact] writes starts with the time elapsed since the start of
    the fact, in parentheses: the two line breaks that separate it from
    an older description are stripped. *)
Theorem update_fact_first_description (env : Env) (fact : Fact)
    (extra_tags : option (list string)) (text : string) (kwargs : list kwarg) :
  Str.given (description (fold_left setattr kwargs fact)) = false ->
  text <> EmptyString ->
  description (updated env fact extra_tags (Some text) kwargs)
  = Some (Str.rstrip ("(+" ++ format_delta (clock env - start_time (fold_left setattr kwargs fact))
                      ++ ") " ++ text)%string).
Proof.
  intros Hold Htext. rewrite updated_description. cbv zeta.
  assert (Hg : Str.given (Some text) = true) by (destruct text; [contradiction|reflexivity]).
  rewrite Hg. cbn [set_description setattr description]. f_equal.
  assert (Hd : default EmptyString (description (fold_left setattr kwargs fact)) = EmptyString).
  { destruct (description (fold_left setattr kwargs fact)) as [[|c d]|];
      [reflexivity|discriminate Hold|reflexivity]. }
  rewrite Hd. reflexivity.
Qed.

Lemma update_fact_first_description_witness :
  description (updated Sample.env Sample.coding None (Some "merged the branch"%string) [])
  = Some (Str.rstrip ("(+" ++ format_delta (clock Sample.env
                                           - start_time (fold_left setattr [] Sample.coding))
                      ++ ") " ++ "merged the branch")%string).
Proof.
  apply (update_fact_first_description Sample.env Sample.coding None "merged the branch" []).
  - reflexivity.
  - discriminate.
Defined.

Lemma update_fact_run_full (env : Env) (hs : Storage) (fact : Fact)
    (extra_tags : option (list string)) (extra_description : option string)
    (kwargs : list kwarg) (tr : trace) :
  hamster_storage env = Some hs ->
  update_fact env fact extra_tags extra_description kwargs tr =
  (tr ++ [UpdateFact (id fact) (updated env fact extra_tags extra_description kwargs)],
   Ok (updated env fact extra_tags extra_description kwargs)).
Proof.
  intros Hhs. unfold update_fact, storage_handle. rewrite Hhs. cbv zeta.
  rewrite bind_run. cbn [mret M_ret]. rewrite bind_run. unfold emit.
  replace (id (updated env fact extra_tags extra_description kwargs)) with (id fact);
    [reflexivity|].
  unfold updated. cbv zeta.
  destruct (Str.given extra_description); destruct extra_tags as [[|t ts]|];
    cbn [set_tags set_description setattr id]; rewrite fold_setattr_id; reflexivity.
Qed.

(** X18. [add_post_scriptum] needs a latest fact (without one its
    assertion fails and nothing is written); with one it makes exactly one
    write, of that fact under its own id, in which nothing but the
    description differs; an empty text leaves the description as it is and
    the fact is written all the same. *)
Theorem add_post_scriptum_writes_description (env : Env) (hs : Storage) (text : list string)
    (tr : trace) :
  hamster_storage env = Some hs ->
  match (get_latest_fact env 2 tr).2 with
  | Ok (Some f) =>
      exists f',
        Commands.add_post_scriptum env text tr = (tr ++ [UpdateFact (id f) f'], Ok tt) /\
        set_description f' (description f) = f /\
        (Str.join " " text = EmptyString -> f' = f)
  | Ok None => Commands.add_post_scriptum env text tr = (tr, Raise (AssertionError Bare))
  | Raise e => Commands.add_post_scriptum env text tr = (tr, Raise e)
  end.
Proof.
  intros Hhs. unfold Commands.add_post_scriptum. rewrite Hhs.
  rewrite bind_run, get_latest_fact_run.
  destruct (get_latest_fact env 2 tr).2 as [[f|]|e]; cbn [snd]; try reflexivity.
  cbv zeta. rewrite bind_run, (update_fact_run_full env hs) by exact Hhs.
  eexists. split; [reflexivity|]. unfold updated. cbn [fold_left]. split.
  - destruct (Str.given _); destruct f; reflexivity.
  - intros ->. reflexivity.
Qed.

Lemma add_post_scriptum_writes_description_witness :
  match (get_latest_fact Sample.env 2 []).2 with
  | Ok (Some f) =>
      exists f',
        Commands.add_post_scriptum Sample.env ["merged"; "the"; "branch"]%string []
        = ([] ++ [UpdateFact (id f) f'], Ok tt) /\
        set_description f' (description f) = f /\
        (Str.join " " ["merged"; "the"; "branch"]%string = EmptyString -> f' = f)
  | Ok None =>
      Commands.add_post_scriptum Sample.env ["merged"; "the"; "branch"]%string []
      = ([], Raise (AssertionError Bare))
  | Raise e =>
      Commands.add_post_scriptum Sample.env ["merged"; "the"; "branch"]%string []
      = ([], Raise e)
  end.
Proof.
  apply (add_post_scriptum_writes_description Sample.env
           (Sample.hamster_with [Sample.reading; Sample.coding])).
  reflexivity.
Defined.

(** *** The tags of a logged interval *)

Lemma list_of_set_In (t : string) (xs : list string) :
  In t (list_of_set xs) <-> In t xs.
Proof.
  unfold list_of_set. rewrite <- !list_elem_of_In, elem_of_elements, elem_of_list_to_set.
  reflexivity.
Qed.

(** X19. The tags [log_activity] gives to the interval are the log tag,
    each tag of [--tags], and [with-p] for each [p] of [--ppl], and
    nothing else. *)
Theorem log_tags_contents (args : Args) (t : string) :
  In t (log_tags args) <->
  t = HAMSTER_TAG_LOG \/
  (Str.given (arg_tags args) = true /\
   In t (Str.split "," (default EmptyString (arg_tags args)))) \/
  (Str.given (ppl args) = true /\
   exists p, In p (Str.split "," (default EmptyString (ppl args))) /\
             t = ("with-" ++ p)%string).
Proof.
  unfold log_tags. cbv zeta.
  assert (Hppl : forall l : list string,
            In t ((fun x => "with-" ++ x)%string <$> l) <->
            exists p, In p l /\ t = ("with-" ++ p)%string).
  { intros l. rewrite <- list_elem_of_In, list_elem_of_fmap.
    split.
    - intros (p & -> & Hp). exists p. split; [apply list_elem_of_In, Hp|reflexivity].
    - intros (p & Hp & ->). exists p. split; [reflexivity|apply list_elem_of_In, Hp]. }
  destruct (Str.given (arg_tags args)), (Str.given (ppl args));
    rewrite ?in_app_iff, ?list_of_set_In, ?in_app_iff, ?Hppl; cbn [In];
    intuition (try discriminate; eauto).
Qed.

Lemma log_tags_log_tag (args : Args) : In HAMSTER_TAG_LOG (log_tags args).
Proof.
  unfold log_tags. cbv zeta.
  destruct (Str.given (arg_tags args)), (Str.given (ppl args));
    rewrite ?in_app_iff, ?list_of_set_In, ?in_app_iff; cbn [In]; auto.
Qed.

Lemma amend_kwargs_tags (env : Env) (args : Args) (tags : list string)
    (start end_ : datetime) (tr : trace) (kwargs : list kwarg) :
  tags <> [] ->
  (amend_kwargs env args tags start end_ tr).2 = Ok kwargs ->
  exists pre, kwargs = pre ++ [KwTags tags].
Proof.
  intros Htags. unfold amend_kwargs. rewrite bind_run.
  destruct (Str.given (arg_activity args)).
  - unfold parse_activity. rewrite bind_run.
    destruct (Storage.parse_activity env (arg_activity args) tr) as [tr' [parsed|e]];
      [|discriminate].
    rewrite bind_run, lift_run. destruct (unpack2 parsed) as [ac|e]; [|discriminate].
    cbn [mret M_ret snd]. intros [= <-].
    destruct tags; [contradiction|]. eexists. reflexivity.
  - cbn [mret M_ret snd]. intros [= <-].
    destruct tags; [contradiction|]. eexists. reflexivity.
Qed.

Lemma In_update_yields (i : option Z) (f : Fact) (ls : list line) :
  ~ In (UpdateFact i f) (Yield <$> ls).
Proof. induction ls as [|l ls IH]; simpl; [tauto|]. intros [H|H]; [discriminate H|tauto]. Qed.

(** X20. Amending replaces the tags.  The fact an amending [log_activity]
    writes carries the tags computed from the command line (the log tag,
    [--tags], [--ppl]): the tags the fact had are not kept. *)
Theorem log_activity_amend_replaces_tags (env : Env) (hs : Storage) (args : Args)
    (start end_ : datetime) (tr : trace) (i : option Z) (f : Fact) :
  hamster_storage env = Some hs ->
  amend args = true ->
  In (UpdateFact i f) (log_activity_record env args start end_ tr).1 ->
  In (UpdateFact i f) tr \/ tags f = log_tags args.
Proof.
  intros Hhs Ham. unfold log_activity_record. rewrite Ham. cbv zeta.
  rewrite bind_run, get_latest_fact_run.
  destruct (get_latest_fact env 2 tr).2 as [fact|e]; [|intros H; left; exact H].
  rewrite bind_run.
  destruct (amend_kwargs_run env args (log_tags args) start end_ tr) as (r & Hrun & _).
  pose proof (amend_kwargs_tags env args (log_tags args) start end_ tr) as Hlast.
  rewrite Hrun in Hlast |- *. cbn [snd] in Hlast.
  destruct r as [kwargs|e]; [|intros H; left; exact H].
  rewrite bind_run, yield_all_run.
  match goal with |- context [Yield <$> ?c] => set (changed := c) end.
  assert (Hnothing :
            In (UpdateFact i f)
               ((_ ← emit (Yield (Text Failure "Nothing changed.")); mret false)
                  (tr ++ (Yield <$> changed))).1 ->
            In (UpdateFact i f) tr \/ tags f = log_tags args).
  { rewrite bind_run. unfold emit. cbn [fst mret M_ret]. rewrite !in_app_iff.
    intros [[H|H]|[H|[]]]; [left; exact H|destruct (In_update_yields _ _ _ H)|discriminate H]. }
  destruct changed as [|c cs] eqn:Hc; [exact Hnothing|].
  destruct fact as [fact|]; [|exact Hnothing].
  rewrite bind_run, (update_fact_run env hs) by exact Hhs. cbn [fst mret M_ret].
  rewrite !in_app_iff. intros [[H|H]|[H|[]]];
    [left; exact H|destruct (In_update_yields _ _ _ H)|].
  right. injection H as _ <-.
  destruct (Hlast kwargs) as (pre & ->); [|reflexivity|].
  - intros Hnil. pose proof (log_tags_log_tag args) as Hin. rewrite Hnil in Hin.
    destruct Hin.
  - rewrite fold_left_app. reflexivity.
Qed.

Lemma log_activity_amend_replaces_tags_witness :
  In (UpdateFact (Some 2)
        (mk_fact (Some 2) "coding" (Some "work") None ["timetra-log"%string]
                 (Sample.at_ 100 10 0) (Some (Sample.at_ 100 12 30)) (Some false)))
     [] \/
  tags (mk_fact (Some 2) "coding" (Some "work") None ["timetra-log"%string]
                (Sample.at_ 100 10 0) (Some (Sample.at_ 100 12 30)) (Some false))
  = log_tags Sample.amend_since_10.
Proof.
  apply (log_activity_amend_replaces_tags Sample.env
           (Sample.hamster_with [Sample.reading; Sample.coding]) Sample.amend_since_10
           (Sample.at_ 100 10 0) (Sample.at_ 100 12 30) [] (Some 2)).
  - reflexivity.
  - reflexivity.
  - vm_compute. auto 10.
Defined.

(** *** [log_activity] as a whole *)

(** X21. Whatever the command line, the facts and the answers of the user,
    [log_activity] only adds to what was printed, asked and written before
    and calls Hamster for a write at most once. *)
Theorem log_activity_writes_at_most_once (env : Env) (args : Args) (tr : trace) :
  exists tail,
    (log_activity env args tr).1 = tr ++ tail /\ (length (writes tail) <= 1)%nat.
Proof.
  assert (Hstop : forall r : result unit,
            exists tail, (tr, r).1 = tr ++ tail /\ (length (writes tail) <= 1)%nat).
  { intros r. exists []. rewrite app_nil_r. split; [reflexivity|simpl; lia]. }
  assert (Hmore : forall (pre : trace) (r : result unit),
            writes pre = [] ->
            exists tail, (tr ++ pre, r).1 = tr ++ tail /\ (length (writes tail) <= 1)%nat).
  { intros pre r Hpre. exists pre. rewrite Hpre. split; [reflexivity|simpl; lia]. }
  rewrite log_activity_run.
  destruct (hamster_storage env) as [hs|] eqn:Hhs.
  - destruct (log_activity_interval env args tr).2 as [[[prev start] end_]|e];
      [|apply Hstop].
    cbn [fst snd]. rewrite (log_activity_reconcile_run env hs) by exact Hhs.
    destruct (overlap env args prev start end_ (todays_facts env hs tr)) as [|p [|q rest]].
    + destruct (log_activity_apply_trace env hs args start end_ tr Hhs)
        as (tail & Htail & _ & Hlen).
      exists tail. split; assumption.
    + destruct (start <=? start_time p); [apply Hmore; reflexivity|].
      destruct (end_time p) as [pe|]; [|apply Hmore; reflexivity].
      cbv zeta. destruct (confirm env _); [|apply Hmore; reflexivity].
      match goal with |- context [log_activity_apply env args start end_ ?t] =>
        destruct (log_activity_apply_trace env hs args start end_ t Hhs)
          as (tail & Htail & _ & Hlen) end.
      eexists (_ ++ tail). rewrite Htail, <- app_assoc. split; [reflexivity|].
      rewrite writes_app. exact Hlen.
    + apply Hmore. reflexivity.
  - unfold log_activity_interval. rewrite Hhs. apply Hstop.
Qed.

Lemma log_activity_interval_inv (env : Env) (args : Args) (tr : trace)
    (prev : option Fact) (start end_ : datetime) :
  (log_activity_interval env args tr).2 = Ok (prev, start, end_) ->
  (get_latest_fact env 2 tr).2 = Ok prev /\
  (exists since until delta, (get_start_end env since until delta tr).2 = Ok (start, end_)) /\
  start <= end_ <= clock env.
Proof.
  unfold log_activity_interval.
  destruct (hamster_storage env); [|discriminate].
  destruct (_ && _); [discriminate|].
  rewrite bind_run.
  assert (Hsu : forall (m : M (option string * option string)),
            m = (if Str.given (between args)
                 then if Str.given (arg_since args) || Str.given (arg_until args)
                         || Str.given (arg_duration args)
                      then raise (AssertionError (Message
                        "--since, --until and --duration must not be used with --between"))
                      else pair ← lift (unpack2 (Str.split "-"
                                          (default EmptyString (between args))));
                           mret (Some pair.1, Some pair.2)
                 else mret (arg_since args, arg_until args)) ->
            (m tr).1 = tr).
  { intros m ->. destruct (Str.given (between args)); [|reflexivity].
    destruct (_ || _); [reflexivity|].
    rewrite bind_run, lift_run. destruct (unpack2 _); reflexivity. }
  match goal with |- (match ?m tr with _ => _ end).2 = _ -> _ =>
    specialize (Hsu m eq_refl); destruct (m tr) as [tr0 [su|e]] end;
    simpl in Hsu; subst tr0; [|discriminate].
  rewrite bind_run, lift_run.
  destruct (parse_time_to_datetime _ _ su.1 _ _) as [since|e]; [|discriminate].
  rewrite bind_run, lift_run.
  destruct (parse_time_to_datetime _ _ su.2 _ _) as [until|e]; [|discriminate].
  rewrite bind_run, lift_run.
  destruct (parse_delta _ _) as [delta|e]; [|discriminate].
  rewrite bind_run, get_latest_fact_run.
  destruct (get_latest_fact env 2 tr).2 as [prev'|e]; [|discriminate].
  rewrite bind_run.
  match goal with |- (match ?m tr with _ => _ end).2 = _ -> _ =>
    assert (Hm : (m tr).1 = tr);
    [destruct (amend args); [destruct prev'|]; reflexivity|];
    destruct (m tr) as [tr0 [su'|e]] end;
    simpl in Hm; subst tr0; [|discriminate].
  rewrite bind_run.
  pose proof (get_start_end_trace env su'.1 su'.2 delta tr) as Hse.
  destruct (get_start_end env su'.1 su'.2 delta tr) as [tr0 [se|e]] eqn:Hrun;
    simpl in Hse; subst tr0; [|discriminate].
  match goal with |- context [if ?c then raise _ else _] => destruct c eqn:Hle end;
    [intros Hx; discriminate Hx|].
  match goal with |- context [if ?c then raise _ else _] => destruct c eqn:Hpast end;
    [intros Hx; discriminate Hx|].
  apply Z.ltb_ge in Hle, Hpast.
  cbn [mret M_ret snd]. intros [= <- <- <-].
  split; [reflexivity|]. split; [|lia].
  exists su'.1, su'.2, delta. rewrite Hrun. destruct se; reflexivity.
Qed.

(** X22. When the interval phase of [log_activity] returns, the interval
    is ordered and not in the future, though it may be empty, and the
    latest fact it hands on exists and is closed. *)
Theorem log_activity_interval_bounds (env : Env) (args : Args) (tr : trace)
    (prev : option Fact) (start end_ : datetime) :
  (log_activity_interval env args tr).2 = Ok (prev, start, end_) ->
  start <= end_ <= clock env /\
  exists p e, prev = Some p /\ (get_latest_fact env 2 tr).2 = Ok (Some p) /\
              end_time p = Some e.
Proof.
  intros H. destruct (log_activity_interval_inv _ _ _ _ _ _ H)
    as (Hprev & (since & until & delta & Hse) & Hle).
  split; [exact Hle|].
  revert Hse. unfold get_start_end.
  rewrite bind_run, get_prev_end_time_run, get_latest_fact_run, Hprev.
  destruct prev as [p|]; [|discriminate].
  cbn [andb]. destruct (end_time p) as [e|] eqn:He.
  - intros _. exists p, e. auto.
  - rewrite bool_decide_true by reflexivity. discriminate.
Qed.

Lemma log_activity_interval_bounds_witness :
  Sample.at_ 100 13 0 <= Sample.at_ 100 13 0 <= clock Sample.env /\
  exists p e, Some Sample.coding = Some p /\
              (get_latest_fact Sample.env 2 []).2 = Ok (Some p) /\
              end_time p = Some e.
Proof.
  apply (log_activity_interval_bounds Sample.env Sample.log_empty []).
  vm_compute. reflexivity.
Defined.

(** X23. [--between A-B] is [--since A --until B]: when neither bound
    holds a hyphen and none of [--since], [--until] and [--duration] is
    given, the two command lines run alike.  (A bound with a hyphen, as
    [now-5], makes the split of [--between] yield three parts.) *)
Theorem log_activity_between (env : Env) (args : Args) (a b : string) (tr : trace) :
  between args = Some (a ++ "-" ++ b)%string ->
  Str.contains_char "-" a = false ->
  Str.contains_char "-" b = false ->
  Str.given (arg_since args) = false ->
  Str.given (arg_until args) = false ->
  Str.given (arg_duration args) = false ->
  log_activity env args tr = log_activity env (with_bounds args a b) tr.
Proof.
  intros Hbetween Ha Hb Hs Hu Hd.
  unfold log_activity, log_activity_interval.
  destruct args as [act am desc tgs since until dur btw people dry].
  cbn [between arg_since arg_until arg_duration arg_activity amend with_bounds
       arg_description arg_tags ppl arg_dry_run] in *.
  subst btw. rewrite Hs, Hu, Hd.
  assert (Hg : Str.given (Some (a ++ "-" ++ b)%string) = true).
  { destruct a; reflexivity. }
  rewrite Hg. cbn [orb Str.given].
  change (default EmptyString (Some (a ++ "-" ++ b)%string))
    with (a ++ String "-" b)%string.
  rewrite split_at_sep by exact Ha. rewrite split_none by exact Hb.
  reflexivity.
Qed.

Lemma log_activity_between_witness :
  log_activity Sample.env
    (mk_args (Some "coding"%string) false None None None None None
             (Some ("14:00" ++ "-" ++ "15:30")%string) None false) []
  = log_activity Sample.env
      (with_bounds
         (mk_args (Some "coding"%string) false None None None None None
                  (Some ("14:00" ++ "-" ++ "15:30")%string) None false)
         "14:00" "15:30") [].
Proof.
  apply (log_activity_between Sample.env
           (mk_args (Some "coding"%string) false None None None None None
                    (Some ("14:00" ++ "-" ++ "15:30")%string) None false)
           "14:00" "15:30" []); reflexivity.
Defined.

(** X24. With Hamster at hand [now] never fails and only prints: one line
    for the latest fact, two more when it has a description, and the line
    [--] when there is no fact. *)
Theorem now_only_prints (env : Env) (hs : Storage) (tr : trace) :
  hamster_storage env = Some hs ->
  exists ls,
    now env tr = (tr ++ (Yield <$> ls), Ok tt) /\
    match (get_latest_fact env 2 tr).2 with
    | Ok (Some fact) =>
        length ls = (if Str.given (description fact) then 3 else 1)%nat
    | _ => ls = [Text Plain "--"]
    end.
Proof.
  intros Hhs. unfold now. rewrite bind_run, get_latest_fact_run.
  assert (Hok : exists o, (get_latest_fact env 2 tr).2 = Ok o).
  { unfold get_latest_fact. cbn [Z.eqb].
    rewrite bind_run, get_facts_for_day_run, Hhs, bind_run.
    destruct (get_facts hs tr _ None _); [|eexists; reflexivity].
    rewrite get_facts_for_day_run, Hhs. eexists. reflexivity. }
  destruct Hok as (o & Ho). rewrite Ho. destruct o as [fact|]; cbn [snd].
  - rewrite bind_run. unfold emit at 1.
    destruct (Str.given (description fact)).
    + rewrite bind_run. unfold emit. eexists [_; _; _]. rewrite <- !app_assoc.
      split; reflexivity.
    + eexists [_]. split; reflexivity.
  - eexists [_]. split; reflexivity.
Qed.

Lemma now_only_prints_witness :
  exists ls,
    now Sample.env [] = ([] ++ (Yield <$> ls), Ok tt) /\
    match (get_latest_fact Sample.env 2 []).2 with
    | Ok (Some fact) =>
        length ls = (if Str.given (description fact) then 3 else 1)%nat
    | _ => ls = [Text Plain "--"]
    end.
Proof.
  apply (now_only_prints Sample.env (Sample.hamster_with [Sample.reading; Sample.coding])).
  reflexivity.
Defined.

(** *** The command [update_fact] *)

Lemma getitem_spec {A} (l : list A) (i : Z) :
  Commands.getitem l i =
  if (- Z.of_nat (length l) <=? i) && (i <? Z.of_nat (length l))
  then l !! Z.to_nat (if i <? 0 then i + Z.of_nat (length l) else i)
  else None.
Proof.
  unfold Commands.getitem. cbv zeta.
  destruct (Z.ltb_spec i 0);
    destruct (Z.leb_spec (- Z.of_nat (length l)) i);
    destruct (Z.ltb_spec i (Z.of_nat (length l))); cbn [andb];
    repeat match goal with
           | |- context [?a <=? ?b] => destruct (Z.leb_spec a b); try lia
           | |- context [?a <? ?b] => destruct (Z.ltb_spec a b); try lia
           end; reflexivity.
Qed.

Lemma update_fact_command_run (env : Env) (hs : Storage) (number : Z)
    (set_activity : option string) (tr : trace) :
  hamster_storage env = Some hs ->
  Commands.update_fact env number set_activity tr =
  match Commands.getitem (todays_facts env hs tr) (- number) with
  | None => (tr, Commands.IndexError)
  | Some fact =>
      if Str.given set_activity then
        let tr1 := tr ++ [Yield (Text Plain ("Updating fact " ++ unicode env fact)%string)] in
        match (Storage.parse_activity env set_activity tr1).2 ≫= unpack2 with
        | Ok ac =>
            (tr1 ++ [UpdateFact (id fact)
                       (setattr (setattr fact (KwActivity (default EmptyString ac.1)))
                                (KwCategory ac.2))],
             Commands.Finished (Ok tt))
        | Raise e => (tr1, Commands.Finished (Raise e))
        end
      else (tr ++ [Yield (Text Failure "No arguments given.")], Commands.Finished (Ok tt))
  end.
Proof.
  intros Hhs. unfold Commands.update_fact.
  rewrite get_facts_for_day_run, Hhs.
  change (get_facts hs tr _ None EmptyString) with (todays_facts env hs tr).
  destruct (Commands.getitem (todays_facts env hs tr) (- number)) as [fact|]; [|reflexivity].
  cbv zeta. destruct (Str.given set_activity); [|reflexivity].
  rewrite bind_run. unfold emit at 1. unfold emit at 1. rewrite bind_run.
  match goal with |- context [parse_activity env set_activity ?t] =>
    pose proof (parse_activity_trace env set_activity t) as Htr;
    unfold parse_activity;
    destruct (Storage.parse_activity env set_activity t) as [tr' [parsed|e]] end;
    simpl in Htr; subst tr'; [|reflexivity].
  rewrite bind_run, lift_run. cbn [snd mbind result_bind].
  destruct (unpack2 parsed) as [ac|e]; [|reflexivity].
  rewrite bind_run, (update_fact_run env hs) by exact Hhs. reflexivity.
Qed.

(** X25. The command [update_fact] reads [-n NUMBER] as a Python index
    counted from the end: with [n] facts today it fails on the index,
    before anything is printed, exactly when [NUMBER] is above [n] or not
    above [-n]; zero and negative numbers down to [1 - n] are accepted. *)
Theorem update_fact_index_error (env : Env) (hs : Storage) (number : Z)
    (set_activity : option string) (tr : trace) :
  hamster_storage env = Some hs ->
  Commands.update_fact env number set_activity tr = (tr, Commands.IndexError) <->
  ~ (- Z.of_nat (length (todays_facts env hs tr)) < number
     <= Z.of_nat (length (todays_facts env hs tr))).
Proof.
  intros Hhs. rewrite (update_fact_command_run env hs) by exact Hhs.
  rewrite getitem_spec.
  set (n := Z.of_nat (length (todays_facts env hs tr))).
  destruct (Z.leb_spec (- n) (- number)); destruct (Z.ltb_spec (- number) n); cbn [andb];
    try (split; [intros _; lia|reflexivity]).
  destruct (todays_facts env hs tr !! _) as [fact|] eqn:Hl.
  - split; [|lia]. cbv zeta.
    destruct (Str.given set_activity); [destruct (_ ≫= unpack2)|]; intros [=].
  - exfalso. apply lookup_ge_None in Hl. subst n.
    destruct (Z.ltb_spec (- number) 0); lia.
Qed.

Lemma update_fact_index_error_witness :
  Commands.update_fact Sample.env 3 None [] = ([], Commands.IndexError) <->
  ~ (- Z.of_nat (length (todays_facts Sample.env
                           (Sample.hamster_with [Sample.reading; Sample.coding]) []))
     < 3
     <= Z.of_nat (length (todays_facts Sample.env
                            (Sample.hamster_with [Sample.reading; Sample.coding]) []))).
Proof.
  apply (update_fact_index_error Sample.env
           (Sample.hamster_with [Sample.reading; Sample.coding]) 3 None []).
  reflexivity.
Defined.

(** X26. Which fact [update_fact --set-activity] changes: number 1 is the
    latest fact of today, 2 the one before it, and so on; number 0, and
    any negative number, counts from the first fact of the day.  The
    command names the fact and writes it under its own id, at most once. *)
Theorem update_fact_selects (env : Env) (hs : Storage) (number : Z) (name : string)
    (tr : trace) (fact : Fact) :
  hamster_storage env = Some hs ->
  name <> EmptyString ->
  - Z.of_nat (length (todays_facts env hs tr)) < number
    <= Z.of_nat (length (todays_facts env hs tr)) ->
  todays_facts env hs tr
    !! Z.to_nat (if 0 <? number
                 then Z.of_nat (length (todays_facts env hs tr)) - number
                 else - number) = Some fact ->
  exists tail r,
    Commands.update_fact env number (Some name) tr
    = (tr ++ Yield (Text Plain ("Updating fact " ++ unicode env fact)%string) :: tail,
       Commands.Finished r) /\
    (tail = [] \/ exists f, tail = [UpdateFact (id fact) f]).
Proof.
  intros Hhs Hname Hrange Hl.
  rewrite (update_fact_command_run env hs) by exact Hhs. rewrite getitem_spec.
  set (n := Z.of_nat (length (todays_facts env hs tr))) in *.
  replace ((- n <=? - number) && (- number <? n)) with true
    by (symmetry; apply andb_true_iff; split; [apply Z.leb_le|apply Z.ltb_lt]; lia).
  replace (Z.to_nat (if - number <? 0 then - number + n else - number))
    with (Z.to_nat (if 0 <? number then n - number else - number))
    by (destruct (Z.ltb_spec (- number) 0), (Z.ltb_spec 0 number); lia).
  rewrite Hl.
  assert (Hg : Str.given (Some name) = true) by (destruct name; [contradiction|reflexivity]).
  rewrite Hg. cbv zeta.
  destruct (_ ≫= unpack2) as [ac|e].
  - eexists [_], _. rewrite <- app_assoc. split; [reflexivity|]. right. eexists. reflexivity.
  - exists [], (Raise e). split; [reflexivity|]. left. reflexivity.
Qed.

Lemma update_fact_selects_witness :
  exists tail r,
    Commands.update_fact Sample.env 2 (Some "coding"%string) []
    = ([] ++ Yield (Text Plain ("Updating fact " ++ unicode Sample.env Sample.reading)%string)
          :: tail,
       Commands.Finished r) /\
    (tail = [] \/ exists f, tail = [UpdateFact (id Sample.reading) f]).
Proof.
  apply (update_fact_selects Sample.env
           (Sample.hamster_with [Sample.reading; Sample.coding]) 2 "coding" []
           Sample.reading).
  - reflexivity.
  - discriminate.
  - vm_compute. split; [reflexivity|discriminate].
  - reflexivity.
Defined.

(** *** Conversions and components in [utils.py] *)

(** X27. [to_datetime] followed by [to_date] is [to_date]: a date becomes
    the midnight that starts it, and the day of that midnight is the date
    again. *)
Theorem to_date_to_datetime (obj : Components.pyobj) (d : datetime) :
  Components.to_datetime obj = Ok d ->
  Components.to_date (Components.ODatetime d) = Components.to_date obj /\
  (forall day, obj = Components.ODate day -> dt_time d = mk_time 0 0 0 0).
Proof.
  destruct obj as [d'|day|]; cbn [Components.to_datetime Components.to_date];
    [intros [= <-]|intros [= <-]|discriminate].
  - split; [reflexivity|discriminate].
  - assert (Hmid : dt_combine day (mk_time 0 0 0 0) = day * us_per_day)
      by (unfold dt_combine; cbn [hour minute second microsecond]; lia).
    rewrite Hmid. split.
    + f_equal. unfold dt_date, us_per_day, us_per_hour, us_per_minute, us_per_second.
      Z.div_mod_to_equations. lia.
    + intros _ _. unfold dt_time.
      replace (day * us_per_day mod us_per_day) with 0; [reflexivity|].
      unfold us_per_day, us_per_hour, us_per_minute, us_per_second.
      Z.div_mod_to_equations. lia.
Qed.

Lemma to_date_to_datetime_witness :
  Components.to_date (Components.ODatetime (dt_combine 100 (mk_time 0 0 0 0)))
  = Components.to_date (Components.ODate 100) /\
  (forall day, Components.ODate 100 = Components.ODate day
               -> dt_time (dt_combine 100 (mk_time 0 0 0 0)) = mk_time 0 0 0 0).
Proof.
  apply (to_date_to_datetime (Components.ODate 100)). reflexivity.
Defined.

Lemma prefix_same_char (c : ascii) (s : string) :
  String.prefix (String c EmptyString) (String c s) = true.
Proof.
  change (String.prefix (String c EmptyString) (String c s))
    with (if ascii_dec c c then String.prefix EmptyString s else false).
  destruct (ascii_dec c c); [destruct s; reflexivity|congruence].
Qed.

Lemma prefix_other_char (c d : ascii) (s : string) :
  c <> d -> String.prefix (String c EmptyString) (String d s) = false.
Proof.
  intros Hcd.
  change (String.prefix (String c EmptyString) (String d s))
    with (if ascii_dec c d then String.prefix EmptyString s else false).
  destruct (ascii_dec c d); [contradiction|reflexivity].
Qed.

Lemma prefix_char_app (c d : ascii) (a b : string) :
  c <> d ->
  String.prefix (String c EmptyString) a = false ->
  String.prefix (String c EmptyString) (a ++ String d b) = false.
Proof.
  intros Hcd Ha. destruct a as [|e a]; simpl.
  - apply prefix_other_char, Hcd.
  - destruct (ascii_dec c e) as [<-|Hce]; [|reflexivity].
    rewrite prefix_same_char in Ha. discriminate Ha.
Qed.

Lemma substring_all (s : string) : String.substring 0 (String.length s) s = s.
Proof. induction s as [|c s IH]; simpl; [reflexivity|]. rewrite IH. reflexivity. Qed.

Lemma substring_tail (c : ascii) (s : string) :
  String.substring 1 (String.length (String c s) - 1) (String c s) = s.
Proof. simpl. rewrite Nat.sub_0_r. apply substring_all. Qed.

Lemma split_time_colon (py_int : string -> result Z) (hs ms : string) (h m : Z) :
  Str.contains_char ":" hs = false -> Str.contains_char ":" ms = false ->
  int_or_0 py_int hs = Ok h -> int_or_0 py_int ms = Ok m ->
  split_time py_int (hs ++ String ":" ms) = Ok [h; m].
Proof.
  intros Hhs Hms Hh Hm. unfold split_time, split_parts.
  assert (Hc : Str.contains_char ":" (hs ++ String ":" ms) = true).
  { rewrite contains_char_app. simpl. apply orb_true_r. }
  rewrite Hc, split_at_sep by exact Hhs. rewrite split_none by exact Hms.
  cbn [ints]. rewrite Hh, Hm. reflexivity.
Qed.

(** X28. What [normalize_component] makes of [h:m], where [int] reads the
    two parts as [h] and [m] (an empty part as 0): after a plus sign the
    duration of [h] hours and [m] minutes, after a minus sign that
    duration negated, in both cases only when [m] is at most 60 (60 itself
    passes the assertion, 61 fails it); without a sign the time of day
    [h:m], when the interpreter accepts it as one. *)
Theorem normalize_component_kinds (py_int : string -> result Z) (hs ms : string)
    (h m : Z) :
  Str.contains_char ":" hs = false ->
  Str.contains_char ":" ms = false ->
  int_or_0 py_int hs = Ok h ->
  int_or_0 py_int ms = Ok m ->
  Components.normalize_component py_int ("+" ++ hs ++ ":" ++ ms)
  = (if m <=? 60 then Ok (BDelta (timedelta_hm h m)) else Raise (AssertionError Bare)) /\
  Components.normalize_component py_int ("-" ++ hs ++ ":" ++ ms)
  = (if m <=? 60 then Ok (BDelta (- timedelta_hm h m)) else Raise (AssertionError Bare)) /\
  (String.prefix "+" hs = false -> String.prefix "-" hs = false ->
   Components.normalize_component py_int (hs ++ ":" ++ ms)
   = (t ← time_hm h m; Ok (BTime t))).
Proof.
  intros Hhs Hms Hh Hm.
  pose proof (split_time_colon py_int hs ms h m Hhs Hms Hh Hm) as Hsplit.
  unfold Components.normalize_component. split; [|split].
  - change ("+" ++ hs ++ ":" ++ ms)%string with (String "+" (hs ++ String ":" ms)).
    rewrite prefix_same_char, substring_tail, Hsplit. cbn [orb mbind result_bind unpack2 snd fst].
    destruct (m <=? 60); reflexivity.
  - change ("-" ++ hs ++ ":" ++ ms)%string with (String "-" (hs ++ String ":" ms)).
    rewrite prefix_same_char, substring_tail, Hsplit.
    rewrite (prefix_other_char "+" "-") by discriminate.
    cbn [orb mbind result_bind unpack2 snd fst].
    destruct (m <=? 60); reflexivity.
  - intros Hplus Hminus.
    change (hs ++ ":" ++ ms)%string with (hs ++ String ":" ms)%string.
    rewrite (prefix_char_app "+" ":") by (discriminate || exact Hplus).
    rewrite (prefix_char_app "-" ":") by (discriminate || exact Hminus).
    rewrite Hsplit. reflexivity.
Qed.

Lemma normalize_component_kinds_witness :
  Components.normalize_component Sample.decimal_int ("+" ++ "1" ++ ":" ++ "60")
  = (if 60 <=? 60 then Ok (BDelta (timedelta_hm 1 60)) else Raise (AssertionError Bare)) /\
  Components.normalize_component Sample.decimal_int ("-" ++ "1" ++ ":" ++ "60")
  = (if 60 <=? 60 then Ok (BDelta (- timedelta_hm 1 60)) else Raise (AssertionError Bare)) /\
  (String.prefix "+" "1" = false -> String.prefix "-" "1" = false ->
   Components.normalize_component Sample.decimal_int ("1" ++ ":" ++ "60")
   = (t ← time_hm 1 60; Ok (BTime t))).
Proof.
  apply (normalize_component_kinds Sample.decimal_int "1" "60" 1 60); reflexivity.
Defined.

(** *** Beeps *)

(** X29. The command line [beep] builds: for each pair the options [-f]
    and [-l] with their values, [-n] between two pairs and none after the
    last.  Without any pair the removal of the last separator fails on the
    empty list. *)
Theorem beep_arguments {A} (str_ : A -> string) :
  Notification.beep str_ true [] = Commands.IndexError /\
  forall (pairs : list (A * A)) (p : A * A),
    Notification.beep str_ true (pairs ++ [p])
    = Commands.Finished
        (Ok (Some ("beep"%string
                   :: (pairs ≫= (fun q => ["-f"; str_ q.1; "-l"; str_ q.2; "-n"]%string))
                   ++ ["-f"; str_ p.1; "-l"; str_ p.2]%string))).
Proof.
  split; [reflexivity|]. intros pairs p. unfold Notification.beep. cbn [negb]. cbv zeta.
  rewrite bind_app. cbn [mbind list_bind app].
  set (l := pairs ≫= _).
  change ([ "-f"; str_ p.1; "-l"; str_ p.2; "-n"]%string)
    with ([ "-f"; str_ p.1; "-l"; str_ p.2]%string ++ ["-n"%string]).
  rewrite app_assoc, removelast_last.
  destruct ((l ++ _) ++ _) eqn:E; [|reflexivity].
  apply app_eq_nil in E. destruct E as [_ E]. discriminate E.
Qed.

(** *** Amending without a change *)


